(** * aldryn_forms/admin.py: the submission admins and the spreadsheet export

    A shallow embedding of [src/aldryn_forms/admin.py].  Python values are
    modelled as follows:
    - a submission record is a [Submission] whose serialized data is the
      ordered list returned by [get_form_data];
    - an exception is a constructor of [exn]; a computation that may raise
      returns a [result];
    - [defaultdict(lambda: 1)] is a [gmap string nat] read with default 1;
    - Django's [SortedDict] is an association list whose [__setitem__]
      appends a new key and overwrites the value of an existing key in place;
    - the view [form_export] runs in a state-and-exception monad over a
      [World] that holds the stored records, the user messages and the log of
      calls made to the external export view. *)

From Stdlib Require Import Ascii.
From stdpp Require Import base strings list gmap pretty sorting.

(** ** Exceptions *)

Inductive exn :=
  | IndexError
  | TypeError
  | OtherError (what : string).

Inductive result (A : Type) :=
  | Ok (a : A)
  | Raise (e : exn).
Arguments Ok {A} a.
Arguments Raise {A} e.

Definition result_bind {A B} (r : result A) (k : A → result B) : result B :=
  match r with
  | Ok a => k a
  | Raise e => Raise e
  end.

(** [try: body except IndexError: handler] *)
Definition try_except_IndexError {A} (body handler : result A) : result A :=
  match body with
  | Raise IndexError => handler
  | r => r
  end.

(** [l[i]] for a non-negative index: out of range raises [IndexError]. *)
Definition getitem {A} (l : list A) (i : nat) : result A :=
  match l !! i with
  | Some x => Ok x
  | None => Raise IndexError
  end.

(** ** Data model *)

(** One serialized field of a submission.  It is a non-empty tuple in Python,
    hence always truthy. *)
Record SerializedFormField := {
  label : string;
  value : string
}.

(** The two persisted models.  Both store the same serialized data; a
    [FormSubmission] row also carries the URL of the originating form. *)
Inductive model_class := FormData | FormSubmission.

Record Submission := {
  name : string;
  sent_at : Z;
  language : string;
  data : list SerializedFormField;
  form_url : option string
}.

Definition get_form_data (obj : Submission) : list SerializedFormField :=
  data obj.

(** Truthiness of [field], which is either [None] or a field tuple. *)
Definition truthy (field : option SerializedFormField) : bool :=
  match field with
  | Some _ => true
  | None => false
  end.

(** ** The accessor factory *)

Definition _clean_data (label0 : string) (position : nat)
    (obj : Submission) : result string :=
  let field0 : option SerializedFormField := None in
  let value0 := "" in
  result_bind
    (try_except_IndexError
       (result_bind (getitem (get_form_data obj) position)
                    (λ f, Ok (Some f)))
       (Ok field0))
    (λ field,
       match field with
       | Some f =>
           if truthy field && bool_decide (label f = label0)
           then Ok (value f)
           else Ok value0
       | None => Ok value0
       end).

Definition clean_data (label0 : string) (position : nat)
    : Submission → result string :=
  _clean_data label0 position.

(** ** SortedDict *)

(** A value of the [headers] dictionary: a callable built by [clean_data] or
    the name of an attribute of the record. *)
Inductive header_value :=
  | Callable (f : Submission → result string)
  | AttrName (attr : string).

Section sorted_dict.
Context {V : Type}.

(** [key in d] *)
Definition sd_contains (key : string) (d : list (string * V)) : bool :=
  bool_decide (key ∈ d.*1).

(** [d[key] = v]: a new key goes last, an existing key keeps its place. *)
Fixpoint sd_setitem (key : string) (v : V) (d : list (string * V))
    : list (string * V) :=
  match d with
  | [] => [(key, v)]
  | (k, w) :: d' =>
      if decide (k = key) then (key, v) :: d'
      else (k, w) :: sd_setitem key v d'
  end.

(** [d[key]] *)
Fixpoint sd_getitem (key : string) (d : list (string * V)) : option V :=
  match d with
  | [] => None
  | (k, w) :: d' => if decide (k = key) then Some w else sd_getitem key d'
  end.
End sorted_dict.

(** ** The header builder of [form_export] *)

(** [u'%s %s' % (label, n)] *)
Definition suffixed (label0 : string) (n : nat) : string :=
  label0 +:+ " " +:+ pretty n.

(** [occurrences[label]] on a [defaultdict(lambda: 1)] *)
Definition occ_get (occurrences : gmap string nat) (label0 : string) : nat :=
  default 1 (occurrences !! label0).

Abbreviation headers_dict := (list (string * header_value)).

(** The body of [for position, field in enumerate(fields)], with the loop
    state [(occurrences, headers)]. *)
Definition header_step (position : nat) (field : SerializedFormField)
    (st : gmap string nat * headers_dict) : gmap string nat * headers_dict :=
  let '(occurrences, headers) := st in
  let label0 := label field in
  if sd_contains label0 headers then
    let n := occ_get occurrences label0 + 1 in
    let occurrences := <[label field := n]> occurrences in
    let label0 := suffixed label0 n in
    (occurrences, sd_setitem label0 (Callable (clean_data (label field) position)) headers)
  else
    (occurrences, sd_setitem label0 (Callable (clean_data (label field) position)) headers).

Fixpoint header_loop (position : nat) (fields : list SerializedFormField)
    (st : gmap string nat * headers_dict) : gmap string nat * headers_dict :=
  match fields with
  | [] => st
  | field :: rest => header_loop (S position) rest (header_step position field st)
  end.

(** The headers derived from the fields, before the two trailing columns. *)
Definition field_headers (fields : list SerializedFormField) : headers_dict :=
  (header_loop 0 fields (∅, [])).2.

(** ** Requests, forms, querysets and responses *)

Record Request := {
  POST : list (string * string)
}.

(** [request.POST or None]: an empty POST dictionary is falsy. *)
Definition POST_or_None (request : Request) : option (list (string * string)) :=
  match POST request with
  | [] => None
  | _ :: _ => Some (POST request)
  end.

(** A lazy queryset: a model and a filter, evaluated against the stored
    records each time it is used. *)
Record QuerySet := {
  qs_model : model_class;
  qs_filter : Submission → bool
}.

Record Media := { media_files : list string }.

(** [Media.add_js]: every path that the list does not have yet goes last. *)
Definition add_files (files data : list string) : list string :=
  foldl (λ acc path, if decide (path ∈ acc) then acc else acc ++ [path])
        files data.

(** [Media.__add__]: an empty media to which the files of the left operand
    and then those of the right operand are added. *)
Definition media_add (a b : Media) : Media :=
  {| media_files := add_files (add_files [] (media_files a)) (media_files b) |}.

(** What the view uses of a bound export form (the form classes live in
    [forms.py]). *)
Record ExportForm := {
  is_valid : bool;
  get_queryset : QuerySet;
  get_filename : string;
  errors : list (string * string);
  form_media : Media
}.

Record Options := {
  app_label : string;
  (** absent on django <= 1.5, where reading it raises [AttributeError] *)
  model_name : option string;
  module_name : string
}.

Record Context := {
  ctx_errors : option (list (string * string));
  ctx_adminform : ExportForm;
  ctx_media : Media;
  ctx_has_change_permission : bool;
  ctx_opts : Options;
  ctx_root_path : string;
  ctx_current_app : string;
  ctx_app_label : string;
  ctx_original : string
}.

Inductive HttpResponse :=
  | Document (content_type : string) (attachment_filename : string)
  | Redirect (to : string)
  | Rendered (template : string) (context : Context).

Inductive export_keyword := kw_file_type | kw_format.

(** The arguments of one call of [django_tablib.views.export]. *)
Record ExportArgs := {
  ea_request : Request;
  ea_queryset : QuerySet;
  ea_model : model_class;
  ea_headers : headers_dict;
  ea_filename : string;
  ea_keyword : export_keyword;
  ea_type : string
}.

Inductive message_level := DEBUG | INFO | SUCCESS | WARNING | ERROR.

(** ** Admin classes *)

Inductive admin_class :=
  | BaseFormSubmissionAdmin
  | FormDataAdmin
  | FormSubmissionAdmin.

(** The classes of this file on the method resolution order of a class;
    [admin.ModelAdmin] comes after them. *)
Definition mro (c : admin_class) : list admin_class :=
  match c with
  | BaseFormSubmissionAdmin => [BaseFormSubmissionAdmin]
  | FormDataAdmin => [FormDataAdmin; BaseFormSubmissionAdmin]
  | FormSubmissionAdmin => [FormSubmissionAdmin; BaseFormSubmissionAdmin]
  end.

(** Attribute lookup along the MRO: the first class that defines it. *)
Definition resolve {T} (own : admin_class → option T) (c : admin_class) : option T :=
  list_find (λ o, is_Some o) (own <$> mro c) ≫= λ p, p.2.

(** [def has_add_permission(self, request)]: only the base class has one. *)
Definition own_has_add_permission (c : admin_class) : option (Request → bool) :=
  match c with
  | BaseFormSubmissionAdmin => Some (λ _, false)
  | FormDataAdmin => None
  | FormSubmissionAdmin => None
  end.

(** The external collaborators of the file. *)
Record Collaborators := {
  (** the translation of a message in the active locale *)
  ugettext : string → string;
  (** [django_tablib.views.export], given the stored records *)
  export : ExportArgs → list Submission → result HttpResponse;
  (** [django.core.urlresolvers.reverse] *)
  reverse : string → string;
  (** the form classes of [forms.py], applied to [request.POST or None] *)
  FormDataExportForm : option (list (string * string)) → ExportForm;
  FormSubmissionExportForm : option (list (string * string)) → ExportForm;
  (** [admin.ModelAdmin.has_add_permission] *)
  ModelAdmin_has_add_permission : admin_class → Request → bool
}.

Definition has_add_permission (env : Collaborators) (c : admin_class)
    (request : Request) : bool :=
  match resolve own_has_add_permission c with
  | Some method => method request
  | None => ModelAdmin_has_add_permission env c request
  end.

(** The class attribute [export_form]. *)
Definition own_export_form (env : Collaborators) (c : admin_class)
    : option (option (option (list (string * string)) → ExportForm)) :=
  match c with
  | BaseFormSubmissionAdmin => Some None
  | FormDataAdmin => Some (Some (FormDataExportForm env))
  | FormSubmissionAdmin => Some (Some (FormSubmissionExportForm env))
  end.

(** [admin.site.register(FormData, FormDataAdmin)] and
    [admin.site.register(FormSubmission, FormSubmissionAdmin)] *)
Definition registry : list (model_class * admin_class) :=
  [(FormData, FormDataAdmin); (FormSubmission, FormSubmissionAdmin)].

(** An admin instance: its class, the options of its model, its media and
    the name of its admin site. *)
Record ModelAdmin := {
  cls : admin_class;
  model_meta : Options;
  media : Media;
  admin_site_name : string
}.

Definition get_admin_url (self : ModelAdmin) (name0 : string) : string :=
  let model_name0 :=
    match model_name (model_meta self) with
    | Some n => n
    | None => module_name (model_meta self)
    end in
  app_label (model_meta self) +:+ "_" +:+ model_name0 +:+ "_" +:+ name0.

(** ** The view monad *)

(** What a request can observe and change: the stored records, the messages
    shown to the user, and the calls made to the export view. *)
Record World := {
  records : list Submission;
  messages : list (message_level * string);
  export_calls : list ExportArgs
}.

Definition M (A : Type) : Type := World → result A * World.

Definition ret {A} (a : A) : M A := λ w, (Ok a, w).

Definition raise {A} (e : exn) : M A := λ w, (Raise e, w).

Definition bind {A B} (m : M A) (k : A → M B) : M B :=
  λ w, match m w with
       | (Ok a, w') => k a w'
       | (Raise e, w') => (Raise e, w')
       end.

Global Instance M_ret : MRet M := @ret.
Global Instance M_bind : MBind M := λ A B k m, bind m k.

Definition lift {A} (r : result A) : M A := λ w, (r, w).

(** [try: body except TypeError: handler] *)
Definition try_except_TypeError {A} (body handler : M A) : M A :=
  λ w, match body w with
       | (Raise TypeError, w') => handler w'
       | r => r
       end.

(** The stored records that a queryset selects. *)
Definition matching (entries : QuerySet) (w : World) : list Submission :=
  filter (λ obj, qs_filter entries obj = true) (records w).

(** Running a queryset against the stored records. *)
Definition evaluate (entries : QuerySet) : M (list Submission) :=
  λ w, (Ok (matching entries w), w).

(** [entries.exists()] *)
Definition qs_exists (entries : QuerySet) : M bool :=
  rows ← evaluate entries;
  ret (bool_decide (rows ≠ [])).

(** The order of [order_by('-sent_at')]: latest first. *)
Definition sent_at_desc (a b : Submission) : Prop := (sent_at b ≤ sent_at a)%Z.

Global Instance sent_at_desc_dec : RelDecision sent_at_desc :=
  λ a b, Z.le_dec (sent_at b) (sent_at a).

(** [entries.order_by('-sent_at')[0]] *)
Definition latest_entry (entries : QuerySet) : M Submission :=
  rows ← evaluate entries;
  match getitem (merge_sort sent_at_desc rows) 0 with
  | Ok obj => ret obj
  | Raise e => raise e
  end.

(** [self.message_user(request, message, level=level)] *)
Definition message_user (request : Request) (message : string)
    (level : message_level) : M unit :=
  λ w, (Ok (), {| records := records w;
                  messages := messages w ++ [(level, message)];
                  export_calls := export_calls w |}).

(** One call of the external export view; the call is logged. *)
Definition call_export (env : Collaborators) (args : ExportArgs) : M HttpResponse :=
  λ w, (export env args (records w),
        {| records := records w;
           messages := messages w;
           export_calls := export_calls w ++ [args] |}).

(** ** form_export *)

Definition build_headers (env : Collaborators)
    (fields : list SerializedFormField) : headers_dict :=
  let headers := field_headers fields in
  let headers := sd_setitem (ugettext env "Language") (AttrName "language") headers in
  let headers := sd_setitem (ugettext env "Submitted on") (AttrName "sent_at") headers in
  headers.

(** [partial(export, request=..., queryset=entries, model=entries.model,
    headers=headers, filename=filename)], completed by one keyword. *)
Definition do_export (env : Collaborators) (request : Request)
    (entries : QuerySet) (headers : headers_dict) (filename : string)
    (kw : export_keyword) (type : string) : M HttpResponse :=
  call_export env {| ea_request := request;
                     ea_queryset := entries;
                     ea_model := qs_model entries;
                     ea_headers := headers;
                     ea_filename := filename;
                     ea_keyword := kw;
                     ea_type := type |}.

(** [self.export_form(request.POST or None)]; on the base class the
    attribute is [None] and the call raises. *)
Definition instantiate_export_form (env : Collaborators) (self : ModelAdmin)
    (request : Request) : result ExportForm :=
  match resolve (own_export_form env) (cls self) with
  | Some (Some export_form) => Ok (export_form (POST_or_None request))
  | _ => Raise TypeError
  end.

Definition form_export (env : Collaborators) (self : ModelAdmin)
    (request : Request) : M HttpResponse :=
  let opts := model_meta self in
  let app_label0 := app_label opts in
  form ← lift (instantiate_export_form env self request);
  let render (errors0 : option (list (string * string))) : M HttpResponse :=
    ret (Rendered "admin/aldryn_forms/export.html"
           {| ctx_errors := errors0;
              ctx_adminform := form;
              ctx_media := media_add (media self) (form_media form);
              ctx_has_change_permission := true;
              ctx_opts := opts;
              ctx_root_path := reverse env "admin:index";
              ctx_current_app := admin_site_name self;
              ctx_app_label := app_label0;
              ctx_original := "Export" |}) in
  if is_valid form then
    let entries := get_queryset form in
    nonempty ← qs_exists entries;
    if nonempty : bool then
      let filename := get_filename form in
      first_entry ← latest_entry entries;
      let fields := get_form_data first_entry in
      let headers := build_headers env fields in
      response ← try_except_TypeError
                   (do_export env request entries headers filename kw_file_type "xls")
                   (do_export env request entries headers filename kw_format "xls");
      ret response
    else
      message_user request "No records found" WARNING;;
      let export_url := "admin:" +:+ get_admin_url self "export" in
      ret (Redirect export_url)
  else
    render (Some (errors form)).

(** ** Observations on the header loop *)

(** The value of the variable [label] when iteration [position] stores its
    accessor, from the loop state at the start of that iteration. *)
Definition step_label (field : SerializedFormField)
    (st : gmap string nat * headers_dict) : string :=
  if sd_contains (label field) st.2
  then suffixed (label field) (occ_get st.1 (label field) + 1)
  else label field.

(** The header under which the field at position [p] is stored. *)
Definition column_label (fields : list SerializedFormField) (p : nat)
    : option string :=
  field ← fields !! p;
  Some (step_label field (header_loop 0 (take p fields) (∅, []))).

(** Among the fields labelled [L], the rank (from 1) of the one at [p]. *)
Definition occurrence_index (L : string) (fields : list SerializedFormField)
    (p : nat) : nat :=
  S (length (filter (λ f, label f = L) (take p fields))).

Definition keys (headers : headers_dict) : list string := headers.*1.

(** The loop state once the fields [seen] have been processed. *)
Abbreviation state_of seen := (header_loop 0 seen (∅, [])).

(** The headers chosen by the iterations of the loop, in field order: the
    values of [label] when line 141 runs. *)
Definition chosen_labels (fields : list SerializedFormField) : list string :=
  imap (λ p field, step_label field (state_of (take p fields))) fields.


(** The entry that the iteration at [position] stores for a field whose label
    needs no counter. *)
Abbreviation plain_entry :=
  (λ (position : nat) (field : SerializedFormField),
     (label field, Callable (clean_data (label field) position))).

(** The number of fields labelled [L] among [seen]. *)
Abbreviation count_label L seen := (length (filter (λ f, label f = L) seen)).

(** No label of [fields] is the disambiguated form of a label of [fields]. *)
Definition no_label_clash (fields : list SerializedFormField) : Prop :=
  ∀ f g n, f ∈ fields → g ∈ fields → label f ≠ suffixed (label g) n.

(** The names of the two trailing columns in the active locale. *)
Definition trailing_names (env : Collaborators) : list string :=
  [ugettext env "Language"; ugettext env "Submitted on"].

(** No trailing name is a label of [fields] or the disambiguated form of
    one. *)
Definition no_trailing_clash (env : Collaborators)
    (fields : list SerializedFormField) : Prop :=
  ∀ f n t, f ∈ fields → t ∈ trailing_names env →
    label f ≠ t ∧ suffixed (label f) n ≠ t.

(** The arguments with which [form_export] calls the export view when
    [first_entry] is the reference record. *)
Definition export_args (env : Collaborators) (request : Request)
    (form : ExportForm) (first_entry : Submission) (kw : export_keyword)
    : ExportArgs :=
  {| ea_request := request;
     ea_queryset := get_queryset form;
     ea_model := qs_model (get_queryset form);
     ea_headers := build_headers env (get_form_data first_entry);
     ea_filename := get_filename form;
     ea_keyword := kw;
     ea_type := "xls" |}.

(** The world after the export calls [calls] have been made. *)
Definition logged (w : World) (calls : list ExportArgs) : World :=
  {| records := records w;
     messages := messages w;
     export_calls := export_calls w ++ calls |}.

Definition xls_content_type : string := "application/vnd.ms-excel".

(** A content type of a spreadsheet document: the xls media type, with or
    without parameters. *)
Definition xls_consistent (content_type : string) : Prop :=
  ∃ parameters, content_type = xls_content_type +:+ parameters.

(** How django-tablib builds the response of its export view: an attachment
    named after the file name it was given, a dot and the file type, with the
    media type of that file type. *)
Definition tablib_response (env : Collaborators) : Prop :=
  ∀ a rows r, export env a rows = Ok r →
    ∃ content_type,
      r = Document content_type (ea_filename a +:+ "." +:+ ea_type a)
      ∧ (ea_type a = "xls" → xls_consistent content_type).

(** ** Character classes *)

Definition is_digit (c : ascii) : bool :=
  bool_decide (c ∈ ["0"; "1"; "2"; "3"; "4"; "5"; "6"; "7"; "8"; "9"]%char).

Fixpoint all_digits (s : string) : bool :=
  match s with
  | EmptyString => true
  | String c s' => is_digit c && all_digits s'
  end.

Fixpoint has_space (s : string) : bool :=
  match s with
  | EmptyString => false
  | String c s' => bool_decide (c = " "%char) || has_space s'
  end.

(** Some suffix of [s] is a space followed by digits only. *)
Fixpoint ends_with_counter (s : string) : bool :=
  match s with
  | EmptyString => false
  | String c s' =>
      bool_decide (c = " "%char) && all_digits s' || ends_with_counter s'
  end.

(** A check that implies [no_label_clash]. *)
Definition plain_labels (fields : list SerializedFormField) : bool :=
  forallb (λ f, negb (ends_with_counter (label f))) fields.

(** A check that implies [no_trailing_clash]. *)
Definition plain_trailing (env : Collaborators)
    (fields : list SerializedFormField) : bool :=
  forallb (λ t, negb (ends_with_counter t)
                && forallb (λ f, negb (bool_decide (label f = t))) fields)
          (trailing_names env).

(** ** The display methods *)

Record Recipient := {
  recipient_name : string;
  recipient_email : string
}.

(** An element of the list handed to the recipients template: an address
    formatted by [formataddr], or a recipient as the record returned it. *)
Inductive person :=
  | Formatted (address : string)
  | Unformatted (recipient : Recipient).

(** The dictionary given to [render_to_string]. *)
Inductive template_dict :=
  | DataDict (fields : list SerializedFormField)
  | PeopleDict (people : list person).

(** The collaborators of the display methods. *)
Record DisplayCollaborators := {
  (** [email.utils.formataddr] *)
  formataddr : string * string → string;
  (** [django.template.loader.render_to_string] *)
  render_to_string : string → template_dict → string;
  (** the method [get_recipients] of the models *)
  obj_get_recipients : Submission → list Recipient
}.

(** [def get_data_for_display(self, obj)] *)
Definition get_data_for_display (denv : DisplayCollaborators)
    (obj : Submission) : string :=
  let data0 := get_form_data obj in
  let html := render_to_string denv
                "admin/aldryn_forms/display/submission_data.html"
                (DataDict data0) in
  html.

(** [def get_recipients(self, obj)]: the base class formats every recipient,
    [FormDataAdmin] returns the list of the record as it is. *)
Definition own_get_recipients (denv : DisplayCollaborators) (c : admin_class)
    : option (Submission → list person) :=
  match c with
  | BaseFormSubmissionAdmin =>
      Some (λ obj,
        let recipients := obj_get_recipients denv obj in
        let formatted :=
          (λ recipient, Formatted (formataddr denv (recipient_name recipient,
                                                    recipient_email recipient)))
          <$> recipients in
        formatted)
  | FormDataAdmin => Some (λ obj, Unformatted <$> obj_get_recipients denv obj)
  | FormSubmissionAdmin => None
  end.

(** [self.get_recipients(obj)]: the method found along the MRO; a class
    without one would raise [AttributeError]. *)
Definition get_recipients (denv : DisplayCollaborators) (c : admin_class)
    (obj : Submission) : result (list person) :=
  match resolve (own_get_recipients denv) c with
  | Some method => Ok (method obj)
  | None => Raise (OtherError "AttributeError")
  end.

(** [def get_recipients_for_display(self, obj)], defined on the base class
    only. *)
Definition get_recipients_for_display (denv : DisplayCollaborators)
    (c : admin_class) (obj : Submission) : result string :=
  result_bind (get_recipients denv c obj) (λ people_list,
    let html := render_to_string denv
                  "admin/aldryn_forms/display/recipients.html"
                  (PeopleDict people_list) in
    Ok html).

(** ** The URLs *)

Inductive view_function :=
  | form_export_view
  | framework_view (what : string).

(** A view, wrapped by [admin_site.admin_view] or not. *)
Inductive view :=
  | admin_view (fn : view_function)
  | bare_view (fn : view_function).

Record url_pattern := {
  url_regex : string;
  url_view : view;
  url_name : option string
}.

(** [def get_urls(self)], given the URLs of [admin.ModelAdmin.get_urls]. *)
Definition get_urls (self : ModelAdmin) (super_urls : list url_pattern)
    : list url_pattern :=
  let pattern (regex : string) (fn : view_function) (name0 : string) :=
    {| url_regex := regex;
       url_view := admin_view fn;
       url_name := Some (get_admin_url self name0) |} in
  let url_patterns := [pattern "export/$" form_export_view "export"] in
  url_patterns ++ super_urls.

(** ** Sample inputs *)

Definition fld (l v : string) : SerializedFormField :=
  {| label := l; value := v |}.

Definition sub (t : Z) (d : list SerializedFormField) : Submission :=
  {| name := "contact"; sent_at := t; language := "en"; data := d;
     form_url := None |}.

Definition all_rows (v : bool) : ExportForm :=
  {| is_valid := v;
     get_queryset := {| qs_model := FormData; qs_filter := λ _, true |};
     get_filename := "contact.xls";
     errors := [];
     form_media := {| media_files := [] |} |}.

Definition xls (filename : string) : HttpResponse :=
  Document xls_content_type filename.

(** An English locale with a django-tablib that knows [file_type]. *)
Definition env_new : Collaborators :=
  {| ugettext := id;
     export := λ a _, Ok (xls (ea_filename a));
     reverse := id;
     FormDataExportForm := λ _, all_rows true;
     FormSubmissionExportForm := λ _, all_rows true;
     ModelAdmin_has_add_permission := λ _ _, true |}.

(** The same with an older django-tablib that only knows [format]. *)
Definition env_legacy : Collaborators :=
  {| ugettext := id;
     export := λ a _, match ea_keyword a with
                      | kw_file_type => Raise TypeError
                      | kw_format => Ok (xls (ea_filename a))
                      end;
     reverse := id;
     FormDataExportForm := λ _, all_rows true;
     FormSubmissionExportForm := λ _, all_rows true;
     ModelAdmin_has_add_permission := λ _ _, true |}.

(** An export view that accepts neither keyword. *)
Definition env_broken : Collaborators :=
  {| ugettext := id;
     export := λ _ _, Raise TypeError;
     reverse := id;
     FormDataExportForm := λ _, all_rows true;
     FormSubmissionExportForm := λ _, all_rows true;
     ModelAdmin_has_add_permission := λ _ _, true |}.

Definition form_data_admin : ModelAdmin :=
  {| cls := FormDataAdmin;
     model_meta := {| app_label := "aldryn_forms";
                      model_name := Some "formdata";
                      module_name := "formdata" |};
     media := {| media_files := [] |};
     admin_site_name := "admin" |}.

Definition world_of (rows : list Submission) : World :=
  {| records := rows; messages := []; export_calls := [] |}.

Definition get_request : Request := {| POST := [] |}.

Definition ada : Recipient :=
  {| recipient_name := "Ada"; recipient_email := "ada@example.org" |}.

(** A display environment that formats an address as the name, a space and
    the address, and records one recipient for every submission. *)
Definition display_env : DisplayCollaborators :=
  {| formataddr := λ pair, pair.1 +:+ " " +:+ pair.2;
     render_to_string := λ template _, template;
     obj_get_recipients := λ _, [ada] |}.

(** The admin of a model on django <= 1.5. *)
Definition legacy_admin : ModelAdmin :=
  {| cls := FormSubmissionAdmin;
     model_meta := {| app_label := "aldryn_forms";
                      model_name := None;
                      module_name := "formsubmission" |};
     media := {| media_files := ["admin.js"] |};
     admin_site_name := "admin" |}.

(** An old django-tablib, which only knows [format] and names its
    attachment as the real one does. *)
Definition env_tablib : Collaborators :=
  {| ugettext := id;
     export := λ a _,
       match ea_keyword a with
       | kw_file_type => Raise TypeError
       | kw_format =>
           Ok (Document "application/vnd.ms-excel; charset=utf-8"
                 (ea_filename a +:+ "." +:+ ea_type a))
       end;
     reverse := id;
     FormDataExportForm := λ _, all_rows true;
     FormSubmissionExportForm := λ _, all_rows true;
     ModelAdmin_has_add_permission := λ _ _, true |}.

(** An invalid form and an admin that share a media file. *)
Definition form_with_media : ExportForm :=
  {| is_valid := false;
     get_queryset := {| qs_model := FormData; qs_filter := λ _, true |};
     get_filename := "contact.xls";
     errors := [("to_date", "Enter a valid date.")];
     form_media := {| media_files := ["core.js"; "calendar.js"] |} |}.

Definition env_with_media : Collaborators :=
  {| ugettext := id;
     export := λ a _, Ok (xls (ea_filename a));
     reverse := id;
     FormDataExportForm := λ _, form_with_media;
     FormSubmissionExportForm := λ _, form_with_media;
     ModelAdmin_has_add_permission := λ _ _, true |}.

Definition admin_with_media : ModelAdmin :=
  {| cls := FormDataAdmin;
     model_meta := {| app_label := "aldryn_forms";
                      model_name := Some "formdata";
                      module_name := "formdata" |};
     media := {| media_files := ["core.js"; "actions.js"] |};
     admin_site_name := "admin" |}.

(** A form class whose forms never validate. *)
Definition env_invalid : Collaborators :=
  {| ugettext := id;
     export := λ a _, Ok (xls (ea_filename a));
     reverse := id;
     FormDataExportForm := λ _, all_rows false;
     FormSubmissionExportForm := λ _, all_rows false;
     ModelAdmin_has_add_permission := λ _ _, true |}.

(** * Properties *)

(** ** Strings: the decimal suffix *)

Lemma pretty_N_char_digit x : is_digit (pretty_N_char x) = true.
Proof. unfold pretty_N_char. by repeat case_match. Qed.

Lemma all_digits_pretty_N_go x s :
  all_digits (pretty_N_go x s) = all_digits s.
Proof.
  revert s. induction (N.lt_wf_0 x) as [x _ IH]; intros s.
  destruct (decide (x = 0)%N) as [->|Hx].
  - by rewrite pretty_N_go_0.
  - rewrite pretty_N_go_step by lia.
    rewrite IH by (apply N.div_lt; lia).
    simpl. by rewrite pretty_N_char_digit.
Qed.

Lemma all_digits_pretty (n : nat) : all_digits (pretty n) = true.
Proof.
  unfold pretty, pretty_nat, pretty, pretty_N.
  case_decide; [done|]. by rewrite all_digits_pretty_N_go.
Qed.

Lemma all_digits_no_space s : all_digits s = true → has_space s = false.
Proof.
  induction s as [|c s IH]; [done|]. simpl.
  intros [Hc Hs]%andb_prop. rewrite IH by done.
  rewrite orb_false_r. apply bool_decide_eq_false. intros ->. done.
Qed.

Lemma app_nil_l (s : string) : "" +:+ s = s.
Proof. reflexivity. Qed.

Lemma app_cons c (s t : string) : String c s +:+ t = String c (s +:+ t).
Proof. reflexivity. Qed.

Lemma has_space_app s1 s2 :
  has_space (s1 +:+ s2) = has_space s1 || has_space s2.
Proof.
  induction s1 as [|c s1 IH]; [done|].
  rewrite app_cons. simpl. by rewrite IH, orb_assoc.
Qed.

(** A string splits in one way only at its last space. *)
Lemma last_space_split l1 l2 d1 d2 :
  has_space d1 = false → has_space d2 = false →
  l1 +:+ " " +:+ d1 = l2 +:+ " " +:+ d2 → l1 = l2 ∧ d1 = d2.
Proof.
  intros H1 H2. revert l2.
  induction l1 as [|c l1 IH]; intros [|c' l2];
    rewrite ?app_cons, ?app_nil_l; intros Heq.
  - by simplify_eq.
  - simplify_eq. rewrite has_space_app in H1. simpl in H1.
    by rewrite orb_true_r in H1.
  - simplify_eq. rewrite has_space_app in H2. simpl in H2.
    by rewrite orb_true_r in H2.
  - simplify_eq. destruct (IH l2) as [-> ->]; done.
Qed.

Lemma suffixed_inj l1 n1 l2 n2 :
  suffixed l1 n1 = suffixed l2 n2 → l1 = l2 ∧ n1 = n2.
Proof.
  unfold suffixed. intros Heq.
  apply last_space_split in Heq as [-> Hn];
    [|by apply all_digits_no_space, all_digits_pretty..].
  split; [done|]. by apply (inj pretty).
Qed.

Lemma suffixed_has_space l n : has_space (suffixed l n) = true.
Proof.
  unfold suffixed. rewrite !has_space_app. simpl. by rewrite orb_true_r.
Qed.

(** The part after the last space of a disambiguated label is a number. *)
Lemma suffixed_tail_digits l n s1 s2 :
  has_space s2 = false → suffixed l n = s1 +:+ " " +:+ s2 → all_digits s2 = true.
Proof.
  unfold suffixed. intros Hs2 Heq.
  apply last_space_split in Heq as [_ <-]; [apply all_digits_pretty| |done].
  apply all_digits_no_space, all_digits_pretty.
Qed.


(** ** SortedDict *)

Section sorted_dict_facts.
Context {V : Type}.
Implicit Types (d : list (string * V)) (k : string) (v : V).

Lemma sd_contains_true k d : sd_contains k d = true ↔ k ∈ d.*1.
Proof. unfold sd_contains. apply bool_decide_eq_true. Qed.

Lemma sd_contains_false k d : sd_contains k d = false ↔ k ∉ d.*1.
Proof. unfold sd_contains. apply bool_decide_eq_false. Qed.

Lemma sd_setitem_fresh k v d : k ∉ d.*1 → sd_setitem k v d = d ++ [(k, v)].
Proof.
  induction d as [|[k' w] d IH]; simpl; [done|].
  intros Hk. rewrite not_elem_of_cons in Hk. destruct Hk as [Hne Hk].
  case_decide; [congruence|]. by rewrite IH.
Qed.

Lemma sd_setitem_keys_present k v d : k ∈ d.*1 → (sd_setitem k v d).*1 = d.*1.
Proof.
  induction d as [|[k' w] d IH]; simpl.
  - intros Hk. by apply elem_of_nil in Hk.
  - intros Hk. case_decide as Hd; simpl; [by subst|].
    f_equal. apply IH. apply elem_of_cons in Hk as [->|]; done.
Qed.

Lemma elem_of_sd_setitem_keys k v d k' :
  k' ∈ (sd_setitem k v d).*1 ↔ k' = k ∨ k' ∈ d.*1.
Proof.
  destruct (decide (k ∈ d.*1)) as [Hin|Hnot].
  - rewrite sd_setitem_keys_present by done.
    split; [by right|by intros [->|?]].
  - rewrite sd_setitem_fresh by done. rewrite fmap_app, elem_of_app. simpl.
    rewrite list_elem_of_singleton. tauto.
Qed.

Lemma sd_setitem_length_fresh k v d :
  k ∉ d.*1 → length (sd_setitem k v d) = S (length d).
Proof.
  intros Hk. rewrite sd_setitem_fresh by done.
  rewrite length_app. simpl. lia.
Qed.

Lemma sd_setitem_length_present k v d :
  k ∈ d.*1 → length (sd_setitem k v d) = length d.
Proof.
  intros Hk. rewrite <-(length_fmap fst), sd_setitem_keys_present by done.
  by rewrite length_fmap.
Qed.

Lemma sd_setitem_length_le k v d : length (sd_setitem k v d) ≤ S (length d).
Proof.
  destruct (decide (k ∈ d.*1)).
  - rewrite sd_setitem_length_present by done. lia.
  - rewrite sd_setitem_length_fresh by done. lia.
Qed.

(** An entry of the updated dictionary is the new one or an old one. *)
Lemma elem_of_sd_setitem k v d k' v' :
  (k', v') ∈ sd_setitem k v d → (k' = k ∧ v' = v) ∨ (k', v') ∈ d.
Proof.
  induction d as [|[k0 w] d IH]; simpl.
  - intros ?%list_elem_of_singleton. left. by simplify_eq.
  - case_decide as Hd.
    + intros [?|Hin]%elem_of_cons; [left; by simplify_eq|].
      right. apply elem_of_cons. by right.
    + intros [?|Hin]%elem_of_cons.
      * simplify_eq. right. apply elem_of_cons. by left.
      * destruct (IH Hin) as [?|?]; [by left|].
        right. apply elem_of_cons. by right.
Qed.

Lemma sd_setitem_keys_NoDup k v d : NoDup d.*1 → NoDup (sd_setitem k v d).*1.
Proof.
  intros Hnd. destruct (decide (k ∈ d.*1)).
  - by rewrite sd_setitem_keys_present.
  - rewrite sd_setitem_fresh by done. rewrite fmap_app. simpl.
    apply NoDup_app. split_and!; [done| |apply NoDup_singleton].
    intros x Hx ->%list_elem_of_singleton. done.
Qed.
End sorted_dict_facts.

(** ** The header loop *)


Lemma header_loop_app p l1 l2 st :
  header_loop p (l1 ++ l2) st = header_loop (p + length l1) l2 (header_loop p l1 st).
Proof.
  revert p st. induction l1 as [|f l1 IH]; intros p st; simpl.
  - by rewrite Nat.add_0_r.
  - rewrite IH. f_equal. lia.
Qed.

Lemma state_of_snoc seen f :
  state_of (seen ++ [f]) = header_step (length seen) f (state_of seen).
Proof. by rewrite header_loop_app. Qed.

Lemma header_step_headers p f st :
  (header_step p f st).2
  = sd_setitem (step_label f st) (Callable (clean_data (label f) p)) st.2.
Proof.
  destruct st as [occ hs]. unfold header_step, step_label. simpl.
  by destruct (sd_contains (label f) hs).
Qed.

Lemma header_step_occ p f st L :
  occ_get (header_step p f st).1 L
  = if decide (L = label f ∧ label f ∈ keys st.2)
    then occ_get st.1 L + 1 else occ_get st.1 L.
Proof.
  destruct st as [occ hs]. unfold header_step, occ_get, keys. simpl.
  destruct (sd_contains (label f) hs) eqn:Hc; simpl.
  - apply sd_contains_true in Hc. case_decide as Hd.
    + destruct Hd as [-> _]. by rewrite lookup_insert_eq.
    + rewrite lookup_insert_ne; [done|]. intros <-. by apply Hd.
  - apply sd_contains_false in Hc. case_decide as Hd; [|done].
    by destruct Hd as [_ ?].
Qed.

Lemma header_step_occ_mono p f st L :
  occ_get st.1 L ≤ occ_get (header_step p f st).1 L.
Proof. rewrite header_step_occ. case_decide; lia. Qed.

Lemma header_step_keys p f st k :
  k ∈ keys (header_step p f st).2 ↔ k = step_label f st ∨ k ∈ keys st.2.
Proof. unfold keys. rewrite header_step_headers. apply elem_of_sd_setitem_keys. Qed.

Lemma step_label_cases f st :
  ((label f ∉ keys st.2) ∧ step_label f st = label f)
  ∨ ((label f ∈ keys st.2)
     ∧ step_label f st = suffixed (label f) (occ_get st.1 (label f) + 1)).
Proof.
  unfold step_label. destruct (sd_contains (label f) st.2) eqn:Hc.
  - right. by apply sd_contains_true in Hc.
  - left. by apply sd_contains_false in Hc.
Qed.

(** After its iteration the label of a field is a key, one way or the other. *)
Lemma header_step_label_in p f st : label f ∈ keys (header_step p f st).2.
Proof.
  apply header_step_keys.
  destruct (step_label_cases f st) as [[_ ->]|[? _]]; auto.
Qed.

Lemma occ_get_state_of_pos seen L : 1 ≤ occ_get (state_of seen).1 L.
Proof.
  induction seen as [|f seen IH] using rev_ind; [done|].
  rewrite state_of_snoc. etrans; [apply IH|apply header_step_occ_mono].
Qed.


Lemma state_of_keys_mono seen more k :
  k ∈ keys (state_of seen).2 → k ∈ keys (state_of (seen ++ more)).2.
Proof.
  intros Hk. induction more as [|f more IH] using rev_ind.
  - by rewrite app_nil_r.
  - rewrite app_assoc, state_of_snoc. apply header_step_keys. by right.
Qed.

Lemma state_of_label_in seen f : f ∈ seen → label f ∈ keys (state_of seen).2.
Proof.
  intros (l1 & l2 & ->)%list_elem_of_split.
  rewrite cons_middle, app_assoc.
  apply state_of_keys_mono. rewrite state_of_snoc. apply header_step_label_in.
Qed.

Lemma state_of_keys_NoDup seen : NoDup (keys (state_of seen).2).
Proof.
  induction seen as [|f seen IH] using rev_ind; [apply NoDup_nil_2|].
  rewrite state_of_snoc. unfold keys. rewrite header_step_headers.
  by apply sd_setitem_keys_NoDup.
Qed.

(** Every key is a label met so far, or such a label with a counter that its
    occurrence counter has already reached. *)
Lemma state_of_keys_shape seen k :
  k ∈ keys (state_of seen).2 →
  ∃ f, f ∈ seen ∧
    (k = label f
     ∨ ∃ n, 2 ≤ n ≤ occ_get (state_of seen).1 (label f) ∧ k = suffixed (label f) n).
Proof.
  revert k. induction seen as [|f seen IH] using rev_ind; intros k.
  - by intros ?%elem_of_nil.
  - rewrite state_of_snoc. intros [->|Hk]%header_step_keys.
    + exists f. split; [apply elem_of_app; right; by apply list_elem_of_singleton|].
      destruct (step_label_cases f (state_of seen)) as [[_ ->]|[Hin ->]]; [by left|].
      right. eexists. split; [|done].
      rewrite header_step_occ. rewrite decide_True by done.
      pose proof (occ_get_state_of_pos seen (label f)). lia.
    + destruct (IH _ Hk) as (g & Hg & Hshape).
      exists g. split; [apply elem_of_app; by left|].
      destruct Hshape as [->|(n & Hn & ->)]; [by left|].
      right. exists n. split; [|done].
      pose proof (header_step_occ_mono (length seen) f (state_of seen) (label g)).
      lia.
Qed.

(** Every entry was stored by the iteration of some field: the accessor checks
    the label of that field at the position of that field, and the key is the
    label itself or the label with a counter. *)
Lemma state_of_entries seen k v :
  (k, v) ∈ (state_of seen).2 →
  ∃ p f, seen !! p = Some f ∧ v = Callable (clean_data (label f) p)
         ∧ (k = label f ∨ ∃ n, 2 ≤ n ∧ k = suffixed (label f) n).
Proof.
  revert k v. induction seen as [|f seen IH] using rev_ind; intros k v.
  - by intros ?%elem_of_nil.
  - rewrite state_of_snoc, header_step_headers.
    intros [[-> ->]|Hin]%elem_of_sd_setitem.
    + exists (length seen), f. split; [by rewrite list_lookup_middle|].
      split; [done|].
      destruct (step_label_cases f (state_of seen)) as [[_ ->]|[_ ->]]; [by left|].
      right. eexists. split; [|done].
      pose proof (occ_get_state_of_pos seen (label f)). lia.
    + destruct (IH _ _ Hin) as (p & g & Hp & Hv & Hk).
      exists p, g. split; [|done]. by apply lookup_app_l_Some.
Qed.


Lemma no_label_clash_app_l l1 l2 : no_label_clash (l1 ++ l2) → no_label_clash l1.
Proof. intros H f g n Hf Hg. apply H; apply elem_of_app; by left. Qed.

(** Without such a clash every iteration adds a key. *)
Lemma state_of_length seen :
  no_label_clash seen → length (state_of seen).2 = length seen.
Proof.
  induction seen as [|f seen IH] using rev_ind; [done|].
  intros Hclash. rewrite state_of_snoc, header_step_headers, length_app. simpl.
  rewrite sd_setitem_length_fresh;
    [rewrite IH by (by apply (no_label_clash_app_l seen [f])); lia|].
  intros (g & Hg & Hshape)%state_of_keys_shape.
  assert (f ∈ seen ++ [f]) as Hf by (apply elem_of_app; right; by apply list_elem_of_singleton).
  assert (g ∈ seen ++ [f]) as Hg' by (apply elem_of_app; by left).
  destruct (step_label_cases f (state_of seen)) as [[Hnot Heq]|[Hin Heq]];
    rewrite Heq in Hshape.
  - destruct Hshape as [Hl|(n & _ & Hl)].
    + apply Hnot. rewrite Hl. by apply state_of_label_in.
    + by apply (Hclash f g n).
  - destruct Hshape as [Hl|(n & Hn & Hl)].
    + by apply (Hclash g f (occ_get (state_of seen).1 (label f) + 1)).
    + apply suffixed_inj in Hl as [Hl Hn']. rewrite Hl in Hn'. lia.
Qed.

Lemma length_field_headers_le fields : length (field_headers fields) ≤ length fields.
Proof.
  unfold field_headers. induction fields as [|f seen IH] using rev_ind; [done|].
  rewrite state_of_snoc, header_step_headers, length_app. simpl.
  etrans; [apply sd_setitem_length_le|]. lia.
Qed.


(** While [L] is not the disambiguated form of a label, its occurrence counter
    counts the fields labelled [L]. *)
Lemma state_of_count L seen :
  (∀ f n, f ∈ seen → L ≠ suffixed (label f) n) →
  match count_label L seen with
  | 0 => (L ∉ keys (state_of seen).2) ∧ occ_get (state_of seen).1 L = 1
  | S c => (L ∈ keys (state_of seen).2) ∧ occ_get (state_of seen).1 L = S c
  end.
Proof.
  induction seen as [|f seen IH] using rev_ind; intros HL.
  - simpl. split; [by intros ?%elem_of_nil|done].
  - assert (∀ f n, f ∈ seen → L ≠ suffixed (label f) n) as HL'.
    { intros g n Hg. apply HL. apply elem_of_app. by left. }
    specialize (IH HL'). rewrite filter_app, length_app, state_of_snoc.
    destruct (decide (label f = L)) as [Heq|Hne].
    + rewrite filter_cons_True by done. simpl.
      destruct (count_label L seen) as [|c]; destruct IH as [Hk Ho]; simpl;
        rewrite header_step_keys, header_step_occ.
      * split.
        -- left. destruct (step_label_cases f (state_of seen)) as [[_ ->]|[Hin _]];
             [done|]. by rewrite Heq in Hin.
        -- rewrite decide_False; [done|]. intros [_ Hin]. by rewrite Heq in Hin.
      * rewrite Nat.add_1_r. split; [by right|].
        rewrite decide_True by (by rewrite Heq). lia.
    + rewrite filter_cons_False by done. simpl. rewrite Nat.add_0_r.
      destruct (count_label L seen) as [|c]; destruct IH as [Hk Ho];
        rewrite header_step_keys, header_step_occ;
        rewrite decide_False by (intros [? _]; done).
      * split; [|done]. intros [Hl|?]; [|done].
        destruct (step_label_cases f (state_of seen)) as [[_ Hs]|[_ Hs]];
          rewrite Hs in Hl; [done|].
        eapply (HL f); [|done].
        apply elem_of_app; right; by apply list_elem_of_singleton.
      * split; [by right|done].
Qed.

(** ** Checks that rule out clashes *)

Lemma suffixed_ends_with_counter l n : ends_with_counter (suffixed l n) = true.
Proof.
  unfold suffixed. induction l as [|c l IH].
  - rewrite app_nil_l, app_cons, app_nil_l. simpl.
    by rewrite all_digits_pretty.
  - rewrite app_cons. simpl. by rewrite IH, orb_true_r.
Qed.

Lemma not_suffixed s l n : ends_with_counter s = false → s ≠ suffixed l n.
Proof. intros Hs ->. by rewrite suffixed_ends_with_counter in Hs. Qed.

Lemma plain_labels_no_clash fields :
  plain_labels fields = true → no_label_clash fields.
Proof.
  unfold plain_labels. rewrite forallb_forall.
  intros Hall f g n Hf _. apply not_suffixed.
  apply negb_true_iff, Hall. by apply list_elem_of_In.
Qed.

Lemma plain_trailing_no_clash env fields :
  plain_trailing env fields = true → no_trailing_clash env fields.
Proof.
  unfold plain_trailing. rewrite forallb_forall.
  intros Hall f n t Hf Ht.
  apply list_elem_of_In, Hall, andb_prop in Ht as [Hplain Hne].
  split.
  - rewrite forallb_forall in Hne.
    apply list_elem_of_In, Hne, negb_true_iff, bool_decide_eq_false in Hf. done.
  - intros Heq. symmetry in Heq. revert Heq. apply not_suffixed.
    by apply negb_true_iff.
Qed.

(** ** The columns of the fields *)

(** Without a clash the trailing names are not among the field headers. *)
Lemma trailing_not_field_header env fields t :
  no_trailing_clash env fields → t ∈ trailing_names env →
  t ∉ keys (field_headers fields).
Proof.
  intros Hclash Ht (f & Hf & Hshape)%state_of_keys_shape.
  destruct (Hclash f 0 t Hf Ht) as [Hne _].
  destruct Hshape as [->|(n & _ & ->)]; [done|].
  by destruct (Hclash f n _ Hf Ht) as [_ Hne'].
Qed.

Lemma build_headers_fresh env fields :
  ugettext env "Language" ≠ ugettext env "Submitted on" →
  ugettext env "Language" ∉ keys (field_headers fields) →
  ugettext env "Submitted on" ∉ keys (field_headers fields) →
  build_headers env fields
  = field_headers fields
    ++ [(ugettext env "Language", AttrName "language");
        (ugettext env "Submitted on", AttrName "sent_at")].
Proof.
  intros Hne H1 H2. unfold build_headers.
  rewrite (sd_setitem_fresh (ugettext env "Language")) by done.
  rewrite sd_setitem_fresh.
  - by rewrite <-app_assoc.
  - rewrite fmap_app, elem_of_app. simpl. rewrite list_elem_of_singleton.
    intros [?|?]; [by apply H2|by apply Hne].
Qed.

(** The header count never exceeds the number of fields plus two. *)
Lemma length_build_headers_le env fields :
  length (build_headers env fields) ≤ length fields + 2.
Proof.
  unfold build_headers.
  etrans; [apply sd_setitem_length_le|].
  pose proof (sd_setitem_length_le (ugettext env "Language") (AttrName "language")
                (field_headers fields)).
  pose proof (length_field_headers_le fields). lia.
Qed.

(** A condition on the labels alone under which every field and both
    trailing columns get a header of their own: no field label is the
    disambiguated form of a field label, and the two trailing column names
    differ from each other, from every field label and from every
    disambiguated form of one. *)
Lemma header_count env fields :
  no_label_clash fields →
  no_trailing_clash env fields →
  ugettext env "Language" ≠ ugettext env "Submitted on" →
  length (build_headers env fields) = length fields + 2.
Proof.
  intros Hlabels Htrailing Hne.
  rewrite build_headers_fresh; [|done|..].
  - rewrite length_app. unfold field_headers.
    rewrite state_of_length by done. simpl. lia.
  - apply (trailing_not_field_header env); [done|]. apply elem_of_cons. by left.
  - apply (trailing_not_field_header env); [done|].
    apply elem_of_cons. right. apply elem_of_cons. by left.
Qed.

Lemma header_count_witness :
  length (build_headers env_new
            [fld "Name" "Ada"; fld "E mail" "a@b.c"; fld "Name" "Lovelace"])
  = 3 + 2.
Proof.
  apply (header_count env_new
           [fld "Name" "Ada"; fld "E mail" "a@b.c"; fld "Name" "Lovelace"]).
  - apply plain_labels_no_clash. reflexivity.
  - apply plain_trailing_no_clash. reflexivity.
  - simpl. discriminate.
Defined.




(** While the label of a field is not the disambiguated form of a label, the
    field is stored under its label when it is the first with that label and
    under the label followed by its rank otherwise. *)
Lemma column_label_by_rank fields p f :
  fields !! p = Some f →
  (∀ g n, g ∈ fields → label f ≠ suffixed (label g) n) →
  column_label fields p
  = Some (if decide (occurrence_index (label f) fields p = 1) then label f
          else suffixed (label f) (occurrence_index (label f) fields p)).
Proof.
  intros Hf Hplain. unfold column_label, occurrence_index. rewrite Hf. simpl.
  f_equal.
  assert (∀ g n, g ∈ take p fields → label f ≠ suffixed (label g) n) as Hplain'.
  { intros g n (i & Hi & _)%elem_of_take. apply Hplain.
    by eapply list_elem_of_lookup_2. }
  pose proof (state_of_count (label f) (take p fields) Hplain') as Hcount.
  destruct (count_label (label f) (take p fields)) as [|c];
    destruct Hcount as [Hk Ho].
  - rewrite decide_True by done.
    by destruct (step_label_cases f (state_of (take p fields))) as [[_ ->]|[? _]].
  - rewrite decide_False by lia.
    destruct (step_label_cases f (state_of (take p fields))) as [[? _]|[_ ->]];
      [done|].
    rewrite Ho. f_equal. lia.
Qed.


(** ** The accessors *)

Lemma clean_data_at L P obj f :
  get_form_data obj !! P = Some f →
  clean_data L P obj = Ok (if decide (label f = L) then value f else "").
Proof.
  intros Hf. unfold clean_data, _clean_data, getitem. rewrite Hf. simpl.
  destruct (decide (label f = L)) as [Heq|Hne].
  - by rewrite bool_decide_eq_true_2.
  - by rewrite bool_decide_eq_false_2.
Qed.

Lemma clean_data_out_of_range L P obj :
  get_form_data obj !! P = None → clean_data L P obj = Ok "".
Proof.
  intros Hf. unfold clean_data, _clean_data, getitem. by rewrite Hf.
Qed.

(** C3: the accessor built for label L and position P returns the empty
    value, and does not raise, for every record that has no field at P or
    whose field at P carries another label. *)
Theorem accessor_blank_on_mismatch L P obj :
  (get_form_data obj !! P = None
   ∨ ∃ f, get_form_data obj !! P = Some f ∧ label f ≠ L) →
  clean_data L P obj = Ok "".
Proof.
  intros [Hnone|(f & Hf & Hne)].
  - by apply clean_data_out_of_range.
  - rewrite (clean_data_at L P obj f) by done. by rewrite decide_False.
Qed.

Lemma accessor_blank_on_mismatch_witness :
  clean_data "Email" 1 (sub 10 [fld "Name" "Ada"]) = Ok ""
  ∧ clean_data "Email" 1 (sub 10 [fld "Name" "Ada"; fld "Phone" "555"]) = Ok "".
Proof.
  split.
  - apply (accessor_blank_on_mismatch "Email" 1 (sub 10 [fld "Name" "Ada"])).
    left. reflexivity.
  - apply (accessor_blank_on_mismatch "Email" 1
             (sub 10 [fld "Name" "Ada"; fld "Phone" "555"])).
    right. exists (fld "Phone" "555"). split; [reflexivity|discriminate].
Defined.

(** C9: every accessor in the header mapping was built from one field of the
    reference record; its header is the label L of that field or L followed
    by a counter, and in both cases it compares the label found at the
    position of that field with L itself: a record whose field there is
    labelled L yields the value of that field, any other label yields the
    empty value. *)
Theorem accessor_checks_original_label env fields header acc :
  (header, Callable acc) ∈ build_headers env fields →
  ∃ p f, fields !! p = Some f
    ∧ (header = label f ∨ ∃ n, 2 ≤ n ∧ header = suffixed (label f) n)
    ∧ ∀ obj g, get_form_data obj !! p = Some g →
        acc obj = Ok (if decide (label g = label f) then value g else "").
Proof.
  unfold build_headers.
  intros [[_ ?]|[[_ ?]|Hin]%elem_of_sd_setitem]%elem_of_sd_setitem; [done..|].
  apply state_of_entries in Hin as (p & f & Hf & Hv & Hk).
  exists p, f. split; [done|]. split; [done|].
  intros obj g Hg. simplify_eq. by apply clean_data_at.
Qed.

Lemma accessor_checks_original_label_witness :
  ∃ p f, [fld "A" "1"; fld "A" "2"] !! p = Some f
    ∧ ("A 2" = label f ∨ ∃ n, 2 ≤ n ∧ "A 2" = suffixed (label f) n)
    ∧ ∀ obj g, get_form_data obj !! p = Some g →
        clean_data "A" 1 obj
        = Ok (if decide (label g = label f) then value g else "").
Proof.
  apply (accessor_checks_original_label env_new [fld "A" "1"; fld "A" "2"]
           "A 2" (clean_data "A" 1)).
  vm_compute. apply elem_of_cons. right. apply elem_of_cons. by left.
Defined.

(** The accessor under the header "A 2" answers for the label "A". *)
Example disambiguated_column_reads_original_label :
  sd_getitem "A 2" (build_headers env_new [fld "A" "1"; fld "A" "2"])
  = Some (Callable (clean_data "A" 1))
  ∧ clean_data "A" 1 (sub 3 [fld "A" "x"; fld "A" "y"]) = Ok "y"
  ∧ clean_data "A" 1 (sub 3 [fld "A" "x"; fld "A 2" "y"]) = Ok "".
Proof. by vm_compute. Qed.

(** ** The trailing columns *)

(** C5 (as amended): when the two trailing column names differ from each
    other and from every header derived from a field, the header mapping is
    the field headers followed by "Language", mapped to the locale attribute,
    and "Submitted on", mapped to the timestamp attribute, in that order. *)
Theorem trailing_columns_last env fields :
  ugettext env "Language" ≠ ugettext env "Submitted on" →
  ugettext env "Language" ∉ keys (field_headers fields) →
  ugettext env "Submitted on" ∉ keys (field_headers fields) →
  build_headers env fields
  = field_headers fields
    ++ [(ugettext env "Language", AttrName "language");
        (ugettext env "Submitted on", AttrName "sent_at")].
Proof. apply build_headers_fresh. Qed.

Lemma trailing_columns_last_witness :
  keys (build_headers env_new [fld "Name" "Ada"; fld "Name" "Lovelace"])
  = ["Name"; "Name 2"; "Language"; "Submitted on"].
Proof.
  rewrite (trailing_columns_last env_new
             [fld "Name" "Ada"; fld "Name" "Lovelace"]).
  - reflexivity.
  - simpl. discriminate.
  - vm_compute. intros H. by repeat (apply elem_of_cons in H as [?|H]; [done|]);
      apply elem_of_nil in H.
  - vm_compute. intros H. by repeat (apply elem_of_cons in H as [?|H]; [done|]);
      apply elem_of_nil in H.
Defined.

(** C5 (as stated) fails: a field labelled "Language" takes the first place
    and the trailing column reuses it. *)
Lemma trailing_columns_counterexample :
  ¬ ∃ front,
      keys (build_headers env_new [fld "Language" "fr"; fld "Age" "36"])
      = front ++ [ugettext env_new "Language"; ugettext env_new "Submitted on"].
Proof.
  intros [front Heq].
  assert (keys (build_headers env_new [fld "Language" "fr"; fld "Age" "36"])
          = ["Language"; "Age"; "Submitted on"]) as Hkeys by (by vm_compute).
  rewrite Hkeys in Heq. unfold env_new in Heq. simpl in Heq.
  by destruct front as [|a [|b [|c [|d front]]]]; simplify_eq/=.
Qed.

(** ** The reference record *)

Global Instance sent_at_desc_total : Total sent_at_desc.
Proof. intros a b. unfold sent_at_desc. lia. Qed.

Global Instance sent_at_desc_trans : Transitive sent_at_desc.
Proof. intros a b c. unfold sent_at_desc. lia. Qed.

(** The first row in descending order of [sent_at] is a row that no other row
    is later than. *)
Lemma order_by_sent_at_head rows :
  rows ≠ [] →
  ∃ first_entry rest,
    merge_sort sent_at_desc rows = first_entry :: rest
    ∧ first_entry ∈ rows
    ∧ ∀ r, r ∈ rows → (sent_at r ≤ sent_at first_entry)%Z.
Proof.
  intros Hne.
  pose proof (merge_sort_Permutation sent_at_desc rows) as Hperm.
  pose proof (StronglySorted_merge_sort sent_at_desc rows) as Hsorted.
  destruct (merge_sort sent_at_desc rows) as [|first_entry rest].
  - by apply Permutation_nil_l in Hperm.
  - exists first_entry, rest. split; [done|].
    apply StronglySorted_cons in Hsorted as [Hall _].
    split.
    + rewrite <-Hperm. apply elem_of_cons. by left.
    + intros r Hr. rewrite <-Hperm in Hr.
      apply elem_of_cons in Hr as [->|Hr]; [done|].
      rewrite Forall_forall in Hall. by apply Hall.
Qed.

Lemma logged_logged w l1 l2 : logged (logged w l1) l2 = logged w (l1 ++ l2).
Proof. unfold logged. simpl. by rewrite app_assoc. Qed.

(** ** Runs of form_export *)

Section runs.
Context (env : Collaborators) (self : ModelAdmin) (request : Request).
Context (w : World) (form : ExportForm).
Hypothesis Hform : instantiate_export_form env self request = Ok form.

Local Ltac start_run :=
  unfold form_export, mbind, M_bind, bind, lift; rewrite Hform; simpl.

(** An invalid form is rendered again with its errors. *)
Lemma form_export_invalid :
  is_valid form = false →
  ∃ context,
    form_export env self request w
    = (Ok (Rendered "admin/aldryn_forms/export.html" context), w)
    ∧ ctx_errors context = Some (errors form).
Proof. intros Hvalid. start_run. rewrite Hvalid. by eexists. Qed.

Lemma form_export_empty :
  is_valid form = true →
  matching (get_queryset form) w = [] →
  form_export env self request w
  = (Ok (Redirect ("admin:" +:+ get_admin_url self "export")),
     {| records := records w;
        messages := messages w ++ [(WARNING, "No records found")];
        export_calls := export_calls w |}).
Proof.
  intros Hvalid Hrows. start_run. rewrite Hvalid.
  unfold qs_exists, evaluate, mbind, M_bind, bind. rewrite Hrows. done.
Qed.

(** With a valid form and matching records the view makes one export call
    with the keyword [file_type], and a second one with the keyword
    [format] when the first raised [TypeError]; it returns the outcome of
    the last call made. *)
Lemma form_export_exports :
  is_valid form = true →
  matching (get_queryset form) w ≠ [] →
  ∃ first_entry rest,
    merge_sort sent_at_desc (matching (get_queryset form) w)
    = first_entry :: rest
    ∧ form_export env self request w
      = match export env (export_args env request form first_entry kw_file_type)
                (records w) with
        | Raise TypeError =>
            (export env (export_args env request form first_entry kw_format)
               (records w),
             logged w [export_args env request form first_entry kw_file_type;
                       export_args env request form first_entry kw_format])
        | r =>
            (r, logged w [export_args env request form first_entry kw_file_type])
        end.
Proof.
  intros Hvalid Hrows.
  destruct (order_by_sent_at_head _ Hrows) as (first_entry & rest & Hsort & _).
  exists first_entry, rest. split; [done|].
  start_run. rewrite Hvalid.
  unfold qs_exists, latest_entry, evaluate, mbind, M_bind, bind.
  rewrite bool_decide_eq_true_2 by done. simpl.
  rewrite Hsort. simpl.
  unfold try_except_TypeError, do_export, call_export. simpl.
  fold (export_args env request form first_entry kw_file_type).
  fold (export_args env request form first_entry kw_format).
  destruct (export env (export_args env request form first_entry kw_file_type)
              (records w)) as [r|[]]; simpl; try done.
  unfold logged. rewrite <-app_assoc. simpl.
  by destruct (export env (export_args env request form first_entry kw_format)
                 (records w)) as [r|e].
Qed.
End runs.

(** No run of the view changes the stored records. *)
Lemma form_export_records env self request w :
  records (form_export env self request w).2 = records w.
Proof.
  destruct (instantiate_export_form env self request) as [form|e] eqn:Hform.
  - destruct (is_valid form) eqn:Hvalid.
    + destruct (decide (matching (get_queryset form) w = [])) as [Hrows|Hrows].
      * by rewrite (form_export_empty env self request w form).
      * destruct (form_export_exports env self request w form Hform Hvalid Hrows)
          as (first_entry & rest & _ & ->).
        by destruct (export env _ (records w)) as [r|[]].
    + destruct (form_export_invalid env self request w form Hform Hvalid)
        as (context & -> & _). done.
  - unfold form_export, mbind, M_bind, bind, lift. by rewrite Hform.
Qed.

(** ** The claims on the view *)

(** C4: with a valid form whose queryset selects no record, the view makes no
    export call, adds the warning "No records found" to the messages, and
    returns a redirect to the export view. *)
Theorem empty_queryset_warns env self request w form :
  instantiate_export_form env self request = Ok form →
  is_valid form = true →
  matching (get_queryset form) w = [] →
  (form_export env self request w).1
  = Ok (Redirect ("admin:" +:+ get_admin_url self "export"))
  ∧ messages (form_export env self request w).2
    = messages w ++ [(WARNING, "No records found")]
  ∧ export_calls (form_export env self request w).2 = export_calls w.
Proof.
  intros Hform Hvalid Hrows.
  by rewrite (form_export_empty env self request w form).
Qed.

Lemma empty_queryset_warns_witness :
  (form_export env_new form_data_admin get_request (world_of [])).1
  = Ok (Redirect ("admin:" +:+ get_admin_url form_data_admin "export"))
  ∧ messages (form_export env_new form_data_admin get_request (world_of [])).2
    = messages (world_of []) ++ [(WARNING, "No records found")]
  ∧ export_calls (form_export env_new form_data_admin get_request (world_of [])).2
    = export_calls (world_of []).
Proof.
  apply (empty_queryset_warns env_new form_data_admin get_request (world_of [])
           (all_rows true)); reflexivity.
Defined.

(** C6: on both registered admins [has_add_permission] resolves to the method
    of the base class and returns False for every request, whatever the
    framework default is; and no run of the export view changes a stored
    record. *)
Theorem creation_rejected env request :
  registry.*2 = [FormDataAdmin; FormSubmissionAdmin]
  ∧ Forall (λ c, has_add_permission env c request = false) registry.*2
  ∧ ∀ self w, records (form_export env self request w).2 = records w.
Proof.
  split; [done|]. split.
  - by repeat constructor.
  - intros self w. apply form_export_records.
Qed.

(** C7: with a valid form and matching records the view first calls the
    export view with [file_type='xls']; when that call does not raise
    [TypeError] its outcome is the outcome of the view and no other call is
    made; when it raises [TypeError] the view calls once more, with
    [format='xls'], and the outcome of that call, a response or any
    exception, is the outcome of the view. *)
Theorem export_keyword_fallback env self request w form :
  instantiate_export_form env self request = Ok form →
  is_valid form = true →
  matching (get_queryset form) w ≠ [] →
  ∃ first_entry,
    (export env (export_args env request form first_entry kw_file_type) (records w)
     ≠ Raise TypeError →
     form_export env self request w
     = (export env (export_args env request form first_entry kw_file_type)
          (records w),
        logged w [export_args env request form first_entry kw_file_type]))
    ∧ (export env (export_args env request form first_entry kw_file_type) (records w)
       = Raise TypeError →
       form_export env self request w
       = (export env (export_args env request form first_entry kw_format)
            (records w),
          logged w [export_args env request form first_entry kw_file_type;
                    export_args env request form first_entry kw_format])).
Proof.
  intros Hform Hvalid Hrows.
  destruct (form_export_exports env self request w form Hform Hvalid Hrows)
    as (first_entry & rest & _ & Hrun).
  exists first_entry. rewrite Hrun.
  destruct (export env (export_args env request form first_entry kw_file_type)
              (records w)) as [r|[]]; split; intros; done.
Qed.

Lemma export_keyword_fallback_witness :
  (form_export env_legacy form_data_admin get_request
     (world_of [sub 5 [fld "Name" "Ada"]])).1
  = Ok (xls "contact.xls")
  ∧ ea_keyword <$> export_calls
      (form_export env_legacy form_data_admin get_request
         (world_of [sub 5 [fld "Name" "Ada"]])).2
    = [kw_file_type; kw_format].
Proof.
  destruct (export_keyword_fallback env_legacy form_data_admin get_request
              (world_of [sub 5 [fld "Name" "Ada"]]) (all_rows true))
    as (first_entry & _ & Hretry); [reflexivity|reflexivity|by vm_compute|].
  rewrite Hretry by reflexivity. split; reflexivity.
Defined.

(** C8: with a valid form and matching records, the record whose fields give
    the headers of every export call is the first of the matching records in
    descending order of [sent_at]: a matching record that no matching record
    was submitted after. *)
Theorem reference_record_is_latest env self request w form :
  instantiate_export_form env self request = Ok form →
  is_valid form = true →
  matching (get_queryset form) w ≠ [] →
  ∃ first_entry calls,
    head (merge_sort sent_at_desc (matching (get_queryset form) w))
    = Some first_entry
    ∧ first_entry ∈ matching (get_queryset form) w
    ∧ (∀ r, r ∈ matching (get_queryset form) w →
         (sent_at r ≤ sent_at first_entry)%Z)
    ∧ (form_export env self request w).2 = logged w calls
    ∧ calls ≠ []
    ∧ Forall (λ a, ea_headers a = build_headers env (get_form_data first_entry))
        calls.
Proof.
  intros Hform Hvalid Hrows.
  destruct (form_export_exports env self request w form Hform Hvalid Hrows)
    as (first_entry & rest & Hsort & Hrun).
  destruct (order_by_sent_at_head _ Hrows)
    as (first_entry' & rest' & Hsort' & Hin & Hmax).
  rewrite Hsort in Hsort'. simplify_eq.
  exists first_entry'. rewrite Hrun, Hsort.
  destruct (export env (export_args env request form first_entry' kw_file_type)
              (records w)) as [r|[]];
    eexists; (split; [done|]); (split; [done|]); (split; [done|]);
    (split; [reflexivity|]); (split; [done|]); by repeat constructor.
Qed.

Lemma reference_record_is_latest_witness :
  ∃ first_entry calls,
    head (merge_sort sent_at_desc
            (matching (get_queryset (all_rows true))
               (world_of [sub 1 [fld "A" "x"]; sub 7 [fld "B" "y"]; sub 3 []])))
    = Some first_entry
    ∧ first_entry ∈ matching (get_queryset (all_rows true))
                      (world_of [sub 1 [fld "A" "x"]; sub 7 [fld "B" "y"]; sub 3 []])
    ∧ (∀ r, r ∈ matching (get_queryset (all_rows true))
                  (world_of [sub 1 [fld "A" "x"]; sub 7 [fld "B" "y"]; sub 3 []]) →
         (sent_at r ≤ sent_at first_entry)%Z)
    ∧ (form_export env_new form_data_admin get_request
         (world_of [sub 1 [fld "A" "x"]; sub 7 [fld "B" "y"]; sub 3 []])).2
      = logged (world_of [sub 1 [fld "A" "x"]; sub 7 [fld "B" "y"]; sub 3 []]) calls
    ∧ calls ≠ []
    ∧ Forall (λ a, ea_headers a = build_headers env_new (get_form_data first_entry))
        calls.
Proof.
  apply (reference_record_is_latest env_new form_data_admin get_request
           (world_of [sub 1 [fld "A" "x"]; sub 7 [fld "B" "y"]; sub 3 []])
           (all_rows true)); [reflexivity|reflexivity|by vm_compute].
Defined.

(** The reference record of three records sent at 1, 7 and 3 is the one sent
    at 7. *)
Example reference_record_sample :
  (latest_entry (get_queryset (all_rows true))
     (world_of [sub 1 [fld "A" "x"]; sub 7 [fld "B" "y"]; sub 3 []])).1
  = Ok (sub 7 [fld "B" "y"]).
Proof. by vm_compute. Qed.

Lemma dot_xls_nonempty (s : string) : s +:+ ".xls" ≠ "".
Proof. destruct s; [done|]. by rewrite app_cons. Qed.

(** C10 (as amended): with a valid form and matching records, a response
    returned by the view is the response of an export call made for the type
    "xls" with the file name of the form, under [file_type] or, after a
    TypeError, under [format]; when that call raises, anything but TypeError
    under [file_type] or anything under [format], the view returns no
    response and raises the same exception; and when the export library
    builds its response as django-tablib does, the response has an xls
    content type and the file name of the form followed by ".xls", which is
    not empty, as its attachment file name. *)
Theorem export_response env self request w form :
  instantiate_export_form env self request = Ok form →
  is_valid form = true →
  matching (get_queryset form) w ≠ [] →
  ∃ first_entry,
    (∀ r, (form_export env self request w).1 = Ok r →
       ∃ kw,
         export env (export_args env request form first_entry kw) (records w)
         = Ok r
         ∧ ea_type (export_args env request form first_entry kw) = "xls"
         ∧ ea_filename (export_args env request form first_entry kw)
           = get_filename form)
    ∧ (∀ e,
         export env (export_args env request form first_entry kw_file_type)
           (records w) = Raise e →
         e ≠ TypeError →
         (form_export env self request w).1 = Raise e)
    ∧ (∀ e,
         export env (export_args env request form first_entry kw_file_type)
           (records w) = Raise TypeError →
         export env (export_args env request form first_entry kw_format)
           (records w) = Raise e →
         (form_export env self request w).1 = Raise e)
    ∧ (tablib_response env →
       ∀ r, (form_export env self request w).1 = Ok r →
         ∃ content_type,
           r = Document content_type (get_filename form +:+ ".xls")
           ∧ xls_consistent content_type
           ∧ get_filename form +:+ ".xls" ≠ "").
Proof.
  intros Hform Hvalid Hrows.
  destruct (form_export_exports env self request w form Hform Hvalid Hrows)
    as (first_entry & rest & _ & Hrun).
  exists first_entry. rewrite Hrun. clear Hrun.
  assert (∀ r,
    (match export env (export_args env request form first_entry kw_file_type)
             (records w) with
     | Raise TypeError =>
         (export env (export_args env request form first_entry kw_format)
            (records w),
          logged w [export_args env request form first_entry kw_file_type;
                    export_args env request form first_entry kw_format])
     | r0 =>
         (r0, logged w [export_args env request form first_entry kw_file_type])
     end).1 = Ok r →
    ∃ kw, export env (export_args env request form first_entry kw) (records w)
          = Ok r) as Hcall.
  { intros r.
    destruct (export env (export_args env request form first_entry kw_file_type)
                (records w)) as [r1|[]] eqn:Hfirst; simpl; intros Hr;
      simplify_eq; by eauto. }
  split; [|split; [|split]].
  - intros r Hr. destruct (Hcall r Hr) as [kw Hkw]. by exists kw.
  - intros e Hfirst Hne. rewrite Hfirst. by destruct e.
  - intros e Hfirst Hsecond. by rewrite Hfirst.
  - intros Hlib r Hr. destruct (Hcall r Hr) as [kw Hkw].
    destruct (Hlib _ _ _ Hkw) as (content_type & -> & Hct).
    exists content_type. split; [done|]. split; [by apply Hct|].
    apply dot_xls_nonempty.
Qed.

Lemma export_response_witness :
  ∃ first_entry,
    (∀ r, (form_export env_tablib form_data_admin get_request
             (world_of [sub 5 [fld "Name" "Ada"]])).1 = Ok r →
       ∃ kw,
         export env_tablib
           (export_args env_tablib get_request (all_rows true) first_entry kw)
           (records (world_of [sub 5 [fld "Name" "Ada"]]))
         = Ok r
         ∧ ea_type (export_args env_tablib get_request (all_rows true)
                      first_entry kw) = "xls"
         ∧ ea_filename (export_args env_tablib get_request (all_rows true)
                          first_entry kw)
           = get_filename (all_rows true))
    ∧ (∀ e,
         export env_tablib
           (export_args env_tablib get_request (all_rows true) first_entry
              kw_file_type)
           (records (world_of [sub 5 [fld "Name" "Ada"]])) = Raise e →
         e ≠ TypeError →
         (form_export env_tablib form_data_admin get_request
            (world_of [sub 5 [fld "Name" "Ada"]])).1 = Raise e)
    ∧ (∀ e,
         export env_tablib
           (export_args env_tablib get_request (all_rows true) first_entry
              kw_file_type)
           (records (world_of [sub 5 [fld "Name" "Ada"]])) = Raise TypeError →
         export env_tablib
           (export_args env_tablib get_request (all_rows true) first_entry
              kw_format)
           (records (world_of [sub 5 [fld "Name" "Ada"]])) = Raise e →
         (form_export env_tablib form_data_admin get_request
            (world_of [sub 5 [fld "Name" "Ada"]])).1 = Raise e)
    ∧ (tablib_response env_tablib →
       ∀ r, (form_export env_tablib form_data_admin get_request
               (world_of [sub 5 [fld "Name" "Ada"]])).1 = Ok r →
         ∃ content_type,
           r = Document content_type (get_filename (all_rows true) +:+ ".xls")
           ∧ xls_consistent content_type
           ∧ get_filename (all_rows true) +:+ ".xls" ≠ "").
Proof.
  apply (export_response env_tablib form_data_admin get_request
           (world_of [sub 5 [fld "Name" "Ada"]]) (all_rows true));
    [reflexivity|reflexivity|by vm_compute].
Defined.

(** The sample library builds its responses as django-tablib does, and the
    view hands its response over. *)
Lemma env_tablib_response : tablib_response env_tablib.
Proof.
  intros a rows r Hr. unfold env_tablib in Hr. simpl in Hr.
  destruct (ea_keyword a); simplify_eq.
  eexists. split; [done|]. intros _. by exists "; charset=utf-8".
Qed.

Example export_response_sample :
  (form_export env_tablib form_data_admin get_request
     (world_of [sub 5 [fld "Name" "Ada"]])).1
  = Ok (Document "application/vnd.ms-excel; charset=utf-8" "contact.xls.xls").
Proof. by vm_compute. Qed.

(** C10 (as stated) fails: when the export view raises under both keywords,
    a valid form with a matching record gets no response. *)
Lemma export_response_counterexample :
  instantiate_export_form env_broken form_data_admin get_request
  = Ok (all_rows true)
  ∧ is_valid (all_rows true) = true
  ∧ matching (get_queryset (all_rows true)) (world_of [sub 5 [fld "Name" "Ada"]])
    ≠ []
  ∧ (form_export env_broken form_data_admin get_request
       (world_of [sub 5 [fld "Name" "Ada"]])).1
    = Raise TypeError.
Proof. by vm_compute. Qed.

(** * Further properties of the header builder *)

Lemma header_step_label_only p f g st :
  label f = label g → header_step p f st = header_step p g st.
Proof.
  intros Heq. destruct st as [occ hs]. unfold header_step. by rewrite Heq.
Qed.

Lemma header_loop_labels_only p fields1 fields2 st :
  label <$> fields1 = label <$> fields2 →
  header_loop p fields1 st = header_loop p fields2 st.
Proof.
  revert p fields2 st.
  induction fields1 as [|f fields1 IH]; intros p [|g fields2] st Heq;
    simplify_eq/=; [done|].
  rewrite (header_step_label_only p f g) by done. by apply IH.
Qed.

(** X1: the header mapping depends on the labels of the reference record
    only: two field sequences with the same labels in the same order give the
    same headers and the same accessors, whatever their values. *)
Theorem headers_depend_on_labels_only env fields1 fields2 :
  label <$> fields1 = label <$> fields2 →
  build_headers env fields1 = build_headers env fields2.
Proof.
  intros Heq. unfold build_headers, field_headers.
  by rewrite (header_loop_labels_only 0 fields1 fields2).
Qed.

Lemma headers_depend_on_labels_only_witness :
  build_headers env_new [fld "Name" "Ada"; fld "Name" "Lovelace"]
  = build_headers env_new [fld "Name" ""; fld "Name" "x"].
Proof.
  apply (headers_depend_on_labels_only env_new
           [fld "Name" "Ada"; fld "Name" "Lovelace"]
           [fld "Name" ""; fld "Name" "x"]).
  reflexivity.
Defined.


Lemma state_of_distinct_labels seen :
  NoDup (label <$> seen) → state_of seen = (∅, imap plain_entry seen).
Proof.
  induction seen as [|f seen IH] using rev_ind; [done|].
  rewrite fmap_app, NoDup_app. simpl. intros (Hnd & Hnew & _).
  rewrite state_of_snoc, IH by done. unfold header_step.
  assert (label f ∉ (imap plain_entry seen).*1) as Hfresh.
  { rewrite fmap_imap. unfold compose. simpl.
    rewrite (imap_const label). intros Hin. apply (Hnew _ Hin).
    by apply list_elem_of_singleton. }
  rewrite (proj2 (sd_contains_false _ _) Hfresh).
  rewrite sd_setitem_fresh by done. rewrite imap_app. simpl.
  by rewrite Nat.add_0_r.
Qed.

(** X3: when the labels of the reference record are pairwise distinct, no
    counter is ever appended: the field headers are the labels, in field
    order, each with the accessor for its own label and position. *)
Theorem distinct_labels_keep_their_names fields :
  NoDup (label <$> fields) →
  field_headers fields = imap plain_entry fields
  ∧ keys (field_headers fields) = label <$> fields.
Proof.
  intros Hnd. unfold field_headers, keys.
  rewrite state_of_distinct_labels by done. split; [done|]. simpl.
  rewrite fmap_imap. unfold compose. simpl. by rewrite (imap_const label).
Qed.

Lemma distinct_labels_keep_their_names_witness :
  field_headers [fld "Name" "Ada"; fld "Phone 2" "555"; fld "Phone" "556"]
  = imap plain_entry [fld "Name" "Ada"; fld "Phone 2" "555"; fld "Phone" "556"]
  ∧ keys (field_headers [fld "Name" "Ada"; fld "Phone 2" "555"; fld "Phone" "556"])
    = label <$> [fld "Name" "Ada"; fld "Phone 2" "555"; fld "Phone" "556"].
Proof.
  apply (distinct_labels_keep_their_names
           [fld "Name" "Ada"; fld "Phone 2" "555"; fld "Phone" "556"]).
  simpl. apply NoDup_ListNoDup. repeat constructor; simpl; intuition discriminate.
Defined.

Lemma build_headers_keys_NoDup env fields :
  NoDup (build_headers env fields).*1.
Proof.
  unfold build_headers.
  do 2 apply sd_setitem_keys_NoDup. apply state_of_keys_NoDup.
Qed.

Lemma sd_setitem_nonempty {V} k (v : V) d : 1 ≤ length (sd_setitem k v d).
Proof. destruct d as [|[k' w] d]; simpl; [lia|]. case_decide; simpl; lia. Qed.

(** X5: there is always at least one header; there are at least as many
    headers as distinct labels and never more than the number of fields plus
    two. *)
Theorem header_count_bounds env fields :
  1 ≤ length (build_headers env fields)
  ∧ length (remove_dups (label <$> fields)) ≤ length (build_headers env fields)
  ∧ length (build_headers env fields) ≤ length fields + 2.
Proof.
  split; [apply sd_setitem_nonempty|]. split; [|apply length_build_headers_le].
  rewrite <-(length_fmap fst (build_headers env fields)).
  apply submseteq_length, NoDup_submseteq; [apply NoDup_remove_dups|].
  intros l (f & -> & Hf)%elem_of_remove_dups%list_elem_of_fmap.
  unfold build_headers.
  do 2 (apply elem_of_sd_setitem_keys; right).
  by apply state_of_label_in.
Qed.

(** X6: the label of every field of the reference record is the name of a
    column, its own or the one it shares with a field or a trailing column of
    the same name. *)
Theorem every_label_is_a_header env fields f :
  f ∈ fields → label f ∈ keys (build_headers env fields).
Proof.
  intros Hf. unfold build_headers, keys.
  do 2 (apply elem_of_sd_setitem_keys; right).
  by apply state_of_label_in.
Qed.

Lemma every_label_is_a_header_witness :
  "A 2" ∈ keys (build_headers env_new [fld "A" "1"; fld "A 2" "2"; fld "A" "3"]).
Proof.
  apply (every_label_is_a_header env_new
           [fld "A" "1"; fld "A 2" "2"; fld "A" "3"] (fld "A 2" "2")).
  apply elem_of_cons. right. apply elem_of_cons. by left.
Defined.

(** ** Looking headers up *)

Section sorted_dict_lookup.
Context {V : Type}.
Implicit Types (d : list (string * V)) (k : string) (v : V).

Lemma sd_getitem_setitem_eq k v d : sd_getitem k (sd_setitem k v d) = Some v.
Proof.
  induction d as [|[k' w] d IH]; simpl.
  - by rewrite decide_True.
  - case_decide as Hd; simpl.
    + by rewrite decide_True.
    + by rewrite decide_False.
Qed.

Lemma sd_getitem_setitem_ne k k' v d :
  k ≠ k' → sd_getitem k' (sd_setitem k v d) = sd_getitem k' d.
Proof.
  intros Hne. induction d as [|[k0 w] d IH]; simpl.
  - by rewrite decide_False.
  - case_decide as Hd; simpl.
    + subst k0. by rewrite !decide_False.
    + case_decide; [done|]. apply IH.
Qed.

(** In a dictionary an entry is found under its key. *)
Lemma sd_getitem_elem k v d :
  NoDup d.*1 → (k, v) ∈ d → sd_getitem k d = Some v.
Proof.
  induction d as [|[k0 w] d IH]; simpl.
  - by intros _ ?%elem_of_nil.
  - intros [Hnew Hnd]%NoDup_cons [Heq|Hin]%elem_of_cons.
    + simplify_eq. by rewrite decide_True.
    + rewrite decide_False; [by apply IH|].
      intros ->. apply Hnew. by apply (list_elem_of_fmap_2 fst _ (k, v)).
Qed.
End sorted_dict_lookup.

(** X7: the column named "Submitted on" always reads the timestamp of the
    record, and the column named "Language" reads its locale unless both
    names have the same translation; a field of the reference record with
    one of these labels does not change that. *)
Theorem trailing_columns_read_attributes env fields :
  sd_getitem (ugettext env "Submitted on") (build_headers env fields)
  = Some (AttrName "sent_at")
  ∧ sd_getitem (ugettext env "Language") (build_headers env fields)
    = Some (AttrName (if decide (ugettext env "Language"
                                 = ugettext env "Submitted on")
                      then "sent_at" else "language")).
Proof.
  unfold build_headers. split; [apply sd_getitem_setitem_eq|].
  case_decide as Heq.
  - rewrite Heq. apply sd_getitem_setitem_eq.
  - rewrite sd_getitem_setitem_ne by done. apply sd_getitem_setitem_eq.
Qed.

(** Without a clash the header chosen for a field is not yet a key. *)
Lemma step_label_fresh seen f :
  no_label_clash (seen ++ [f]) →
  step_label f (state_of seen) ∉ keys (state_of seen).2.
Proof.
  intros Hclash (g & Hg & Hshape)%state_of_keys_shape.
  assert (f ∈ seen ++ [f]) as Hf
    by (apply elem_of_app; right; by apply list_elem_of_singleton).
  assert (g ∈ seen ++ [f]) as Hg' by (apply elem_of_app; by left).
  destruct (step_label_cases f (state_of seen)) as [[Hnot Heq]|[Hin Heq]];
    rewrite Heq in Hshape.
  - destruct Hshape as [Hl|(n & _ & Hl)].
    + apply Hnot. rewrite Hl. by apply state_of_label_in.
    + by apply (Hclash f g n).
  - destruct Hshape as [Hl|(n & Hn & Hl)].
    + by apply (Hclash g f (occ_get (state_of seen).1 (label f) + 1)).
    + apply suffixed_inj in Hl as [Hl Hn']. rewrite Hl in Hn'. lia.
Qed.




(** Without a clash the entry stored for a field stays in the mapping. *)
Lemma column_entry_kept fields p f :
  no_label_clash fields → fields !! p = Some f →
  (step_label f (state_of (take p fields)), Callable (clean_data (label f) p))
  ∈ (state_of fields).2.
Proof.
  revert p. induction fields as [|g seen IH] using rev_ind; intros p Hclash Hp.
  - by rewrite lookup_nil in Hp.
  - rewrite state_of_snoc, header_step_headers.
    rewrite sd_setitem_fresh by (by apply step_label_fresh).
    apply elem_of_app.
    destruct (decide (p < length seen)) as [Hlt|Hge].
    + left. rewrite lookup_app_l in Hp by done.
      rewrite take_app_le by lia.
      apply IH; [by apply (no_label_clash_app_l seen [g])|done].
    + right. apply lookup_lt_Some in Hp as Hlen.
      rewrite length_app in Hlen. simpl in Hlen.
      assert (p = length seen) as -> by lia.
      rewrite list_lookup_middle in Hp by done. simplify_eq.
      rewrite take_app_length. by apply list_elem_of_singleton.
Qed.

(** X8: when no label clashes with a disambiguated form or a trailing name,
    the field at position p of the reference record has a column of its own:
    the accessor found under its header returns, for every record whose
    field at p carries the same label, the value of that field; so the row of
    the reference record shows all its values. *)
Theorem every_field_has_its_column env fields p f :
  no_label_clash fields →
  no_trailing_clash env fields →
  ugettext env "Language" ≠ ugettext env "Submitted on" →
  fields !! p = Some f →
  ∃ header acc,
    column_label fields p = Some header
    ∧ sd_getitem header (build_headers env fields) = Some (Callable acc)
    ∧ ∀ obj g, get_form_data obj !! p = Some g → label g = label f →
        acc obj = Ok (value g).
Proof.
  intros Hlabels Htrailing Hne Hp.
  exists (step_label f (state_of (take p fields))), (clean_data (label f) p).
  split; [unfold column_label; by rewrite Hp|]. split.
  - apply sd_getitem_elem; [apply build_headers_keys_NoDup|].
    rewrite build_headers_fresh; [|done|..].
    + apply elem_of_app. left. by apply column_entry_kept.
    + apply (trailing_not_field_header env); [done|]. apply elem_of_cons. by left.
    + apply (trailing_not_field_header env); [done|].
      apply elem_of_cons. right. apply elem_of_cons. by left.
  - intros obj g Hg Hl. rewrite (clean_data_at _ _ _ g) by done.
    by rewrite decide_True.
Qed.

Lemma every_field_has_its_column_witness :
  ∃ header acc,
    column_label [fld "Name" "Ada"; fld "Name" "Lovelace"] 1 = Some header
    ∧ sd_getitem header
        (build_headers env_new [fld "Name" "Ada"; fld "Name" "Lovelace"])
      = Some (Callable acc)
    ∧ ∀ obj g, get_form_data obj !! 1 = Some g →
        label g = label (fld "Name" "Lovelace") → acc obj = Ok (value g).
Proof.
  apply (every_field_has_its_column env_new
           [fld "Name" "Ada"; fld "Name" "Lovelace"] 1 (fld "Name" "Lovelace")).
  - apply plain_labels_no_clash. reflexivity.
  - apply plain_trailing_no_clash. reflexivity.
  - simpl. discriminate.
  - reflexivity.
Defined.

(** X9: an accessor never raises: for every label, position and record it
    returns the empty value or the value of the field that the record has at
    that position under that label. *)
Theorem accessor_never_raises L P obj :
  ∃ v, clean_data L P obj = Ok v
    ∧ (v = "" ∨ ∃ f, get_form_data obj !! P = Some f ∧ label f = L ∧ v = value f).
Proof.
  destruct (get_form_data obj !! P) as [f|] eqn:Hf.
  - rewrite (clean_data_at L P obj f) by done. eexists. split; [done|].
    case_decide; [right; by exists f|by left].
  - rewrite clean_data_out_of_range by done. eexists. split; [done|by left].
Qed.

(** * Further properties of the view *)

Lemma world_eta w :
  w = {| records := records w;
         messages := messages w ++ [];
         export_calls := export_calls w ++ [] |}.
Proof. destruct w. simpl. by rewrite !app_nil_r. Qed.

Lemma app_ne_self {A} (l l' : list A) : l' ≠ [] → l ++ l' ≠ l.
Proof.
  intros Hne Heq. apply (f_equal length) in Heq. rewrite length_app in Heq.
  destruct l'; [done|]. simpl in Heq. lia.
Qed.

Lemma elem_of_add_files files data x :
  x ∈ add_files files data ↔ x ∈ files ∨ x ∈ data.
Proof.
  unfold add_files. revert files.
  induction data as [|path data IH]; intros files; simpl.
  - split; [by left|]. intros [?|Hx]; [done|]. by apply elem_of_nil in Hx.
  - rewrite IH, elem_of_cons. case_decide as Hin.
    + split; [tauto|]. intros [?|[->|?]]; tauto.
    + rewrite elem_of_app, list_elem_of_singleton. tauto.
Qed.

Lemma NoDup_add_files files data : NoDup files → NoDup (add_files files data).
Proof.
  unfold add_files. revert files.
  induction data as [|path data IH]; intros files Hnd; simpl; [done|].
  apply IH. case_decide as Hin; [done|].
  apply NoDup_app. split_and!; [done| |apply NoDup_singleton].
  intros x Hx ->%list_elem_of_singleton. done.
Qed.

(** X10: an invalid form changes nothing: no message, no export call; the
    view renders the export template again with the errors of the form and
    the form itself; the media of the page are the files of the admin and of
    the form, each of them once. *)
Theorem invalid_form_is_rendered_again env self request w form :
  instantiate_export_form env self request = Ok form →
  is_valid form = false →
  ∃ context,
    form_export env self request w
    = (Ok (Rendered "admin/aldryn_forms/export.html" context), w)
    ∧ ctx_errors context = Some (errors form)
    ∧ ctx_adminform context = form
    ∧ NoDup (media_files (ctx_media context))
    ∧ (∀ x, x ∈ media_files (ctx_media context)
            ↔ x ∈ media_files (media self) ∨ x ∈ media_files (form_media form))
    ∧ ctx_app_label context = app_label (model_meta self).
Proof.
  intros Hform Hvalid.
  unfold form_export, mbind, M_bind, bind, lift. rewrite Hform. simpl.
  rewrite Hvalid. eexists. split; [done|]. simpl.
  split; [done|]. split; [done|].
  split; [do 2 apply NoDup_add_files; apply NoDup_nil_2|].
  split; [|done].
  intros x. rewrite !elem_of_add_files, elem_of_nil. tauto.
Qed.

Lemma invalid_form_is_rendered_again_witness :
  ∃ context,
    form_export env_with_media admin_with_media get_request
      (world_of [sub 5 [fld "Name" "Ada"]])
    = (Ok (Rendered "admin/aldryn_forms/export.html" context),
       world_of [sub 5 [fld "Name" "Ada"]])
    ∧ ctx_errors context = Some (errors form_with_media)
    ∧ ctx_adminform context = form_with_media
    ∧ NoDup (media_files (ctx_media context))
    ∧ (∀ x, x ∈ media_files (ctx_media context)
            ↔ x ∈ media_files (media admin_with_media)
              ∨ x ∈ media_files (form_media form_with_media))
    ∧ ctx_app_label context = app_label (model_meta admin_with_media).
Proof.
  apply (invalid_form_is_rendered_again env_with_media admin_with_media
           get_request (world_of [sub 5 [fld "Name" "Ada"]]) form_with_media);
    reflexivity.
Defined.

(** The shared file appears once on the page. *)
Example media_sample :
  media_files (media_add (media admin_with_media) (form_media form_with_media))
  = ["core.js"; "actions.js"; "calendar.js"].
Proof. by vm_compute. Qed.

(** X11: whatever the request, a run of the view keeps the stored records,
    adds at most the one warning or at most two export calls, and never
    both. *)
Theorem form_export_frame env self request w :
  ∃ msgs calls,
    (form_export env self request w).2
    = {| records := records w;
         messages := messages w ++ msgs;
         export_calls := export_calls w ++ calls |}
    ∧ length calls ≤ 2
    ∧ (msgs = [] ∨ msgs = [(WARNING, "No records found")] ∧ calls = []).
Proof.
  destruct (instantiate_export_form env self request) as [form|e] eqn:Hform.
  - destruct (is_valid form) eqn:Hvalid.
    + destruct (decide (matching (get_queryset form) w = [])) as [Hrows|Hrows].
      * rewrite (form_export_empty env self request w form) by done.
        exists [(WARNING, "No records found")], []. simpl.
        rewrite app_nil_r. split; [done|]. split; [lia|by right].
      * destruct (form_export_exports env self request w form Hform Hvalid Hrows)
          as (first_entry & rest & _ & ->).
        destruct (export env _ (records w)) as [r|[]]; simpl;
          eexists [], _; rewrite app_nil_r;
          (split; [reflexivity|]); (split; [simpl; lia|by left]).
    + destruct (form_export_invalid env self request w form Hform Hvalid)
        as (context & -> & _).
      exists [], []. split; [apply world_eta|]. split; [simpl; lia|by left].
  - unfold form_export, mbind, M_bind, bind, lift. rewrite Hform. simpl.
    exists [], []. split; [apply world_eta|]. split; [simpl; lia|by left].
Qed.

(** X12: for a registered admin the warning is added exactly when the form is
    valid and selects no record, and export calls are made exactly when the
    form is valid and selects a record. *)
Theorem side_effects_by_case env self request w form :
  instantiate_export_form env self request = Ok form →
  messages (form_export env self request w).2
  = messages w
    ++ (if decide (is_valid form = true ∧ matching (get_queryset form) w = [])
        then [(WARNING, "No records found")] else [])
  ∧ (export_calls (form_export env self request w).2 = export_calls w
     ↔ ¬ (is_valid form = true ∧ matching (get_queryset form) w ≠ [])).
Proof.
  intros Hform. destruct (is_valid form) eqn:Hvalid.
  - destruct (decide (matching (get_queryset form) w = [])) as [Hrows|Hrows].
    + rewrite (form_export_empty env self request w form) by done. simpl.
      rewrite decide_True by done. split; [done|]. split; [|done].
      intros _ [_ ?]. done.
    + destruct (form_export_exports env self request w form Hform Hvalid Hrows)
        as (first_entry & rest & _ & ->).
      rewrite decide_False by (intros [_ ?]; done).
      destruct (export env _ (records w)) as [r|[]]; simpl;
        rewrite app_nil_r; (split; [done|]);
        (split; [intros Heq; by apply app_ne_self in Heq|intros []; done]).
  - destruct (form_export_invalid env self request w form Hform Hvalid)
      as (context & -> & _).
    rewrite decide_False by (intros [? _]; done).
    simpl. rewrite app_nil_r. split; [done|]. split; [|done]. by intros _ [? _].
Qed.

Lemma side_effects_by_case_witness :
  messages (form_export env_new form_data_admin get_request (world_of [])).2
  = messages (world_of []) ++ [(WARNING, "No records found")].
Proof.
  destruct (side_effects_by_case env_new form_data_admin get_request
              (world_of []) (all_rows true)) as [Hmsgs _]; [reflexivity|].
  rewrite Hmsgs. reflexivity.
Defined.

(** X13: the two registered admins always obtain a form, each from its own
    form class applied to the POST data or to None when there is none; an
    admin of the bare base class has no form class, and its view raises
    TypeError without touching anything. *)
Theorem export_form_by_class env self request w :
  match cls self with
  | FormDataAdmin =>
      instantiate_export_form env self request
      = Ok (FormDataExportForm env (POST_or_None request))
  | FormSubmissionAdmin =>
      instantiate_export_form env self request
      = Ok (FormSubmissionExportForm env (POST_or_None request))
  | BaseFormSubmissionAdmin =>
      form_export env self request w = (Raise TypeError, w)
  end.
Proof.
  unfold form_export, mbind, M_bind, bind, lift, instantiate_export_form.
  by destruct (cls self).
Qed.

(** X15: when one matching record was submitted later than every other, it
    is the reference record, in whatever order the records are stored. *)
Theorem latest_entry_unique entries w m :
  m ∈ matching entries w →
  (∀ r, r ∈ matching entries w → (sent_at m ≤ sent_at r)%Z → r = m) →
  latest_entry entries w = (Ok m, w).
Proof.
  intros Hm Hunique.
  assert (matching entries w ≠ []) as Hrows.
  { intros Heq. rewrite Heq in Hm. by apply elem_of_nil in Hm. }
  destruct (order_by_sent_at_head _ Hrows)
    as (first_entry & rest & Hsort & Hin & Hmax).
  unfold latest_entry, evaluate, mbind, M_bind, bind. rewrite Hsort. simpl.
  by rewrite (Hunique first_entry Hin (Hmax m Hm)).
Qed.

Lemma latest_entry_unique_witness :
  latest_entry (get_queryset (all_rows true))
    (world_of [sub 1 [fld "A" "x"]; sub 7 [fld "B" "y"]; sub 3 []])
  = (Ok (sub 7 [fld "B" "y"]),
     world_of [sub 1 [fld "A" "x"]; sub 7 [fld "B" "y"]; sub 3 []]).
Proof.
  apply (latest_entry_unique (get_queryset (all_rows true))
           (world_of [sub 1 [fld "A" "x"]; sub 7 [fld "B" "y"]; sub 3 []])
           (sub 7 [fld "B" "y"])).
  - apply elem_of_cons. right. apply elem_of_cons. by left.
  - intros r Hr. vm_compute in Hr.
    repeat (apply elem_of_cons in Hr as [->|Hr]; [simpl; intros; (done || lia)|]).
    by apply elem_of_nil in Hr.
Defined.

(** On an empty selection the subscript [0] raises IndexError. *)
Lemma latest_entry_empty entries w :
  matching entries w = [] → latest_entry entries w = (Raise IndexError, w).
Proof.
  intros Hrows. unfold latest_entry, evaluate, mbind, M_bind, bind.
  by rewrite Hrows.
Qed.

(** * The URLs and the display methods *)

Lemma string_app_inv_head (s a b : string) : s +:+ a = s +:+ b → a = b.
Proof.
  induction s as [|c s IH]; [done|].
  rewrite !app_cons. intros [= Heq]. by apply IH.
Qed.

(** X16: the first URL of an admin is the export route, served by
    [form_export] behind the admin site's wrapper, before every URL of the
    framework; and the redirect issued on an empty selection goes to the name
    of that route in the [admin:] namespace. *)
Theorem redirect_goes_to_export_route env self request w form super_urls :
  instantiate_export_form env self request = Ok form →
  is_valid form = true →
  matching (get_queryset form) w = [] →
  ∃ route n,
    get_urls self super_urls = route :: super_urls
    ∧ url_regex route = "export/$"
    ∧ url_view route = admin_view form_export_view
    ∧ url_name route = Some n
    ∧ (form_export env self request w).1 = Ok (Redirect ("admin:" +:+ n)).
Proof.
  intros Hform Hvalid Hrows.
  rewrite (form_export_empty env self request w form) by done.
  by eexists _, _.
Qed.

Lemma redirect_goes_to_export_route_witness :
  ∃ route n,
    get_urls legacy_admin [] = route :: []
    ∧ url_regex route = "export/$"
    ∧ url_view route = admin_view form_export_view
    ∧ url_name route = Some n
    ∧ (form_export env_new legacy_admin get_request (world_of [])).1
      = Ok (Redirect ("admin:" +:+ n)).
Proof.
  apply (redirect_goes_to_export_route env_new legacy_admin get_request
           (world_of []) (all_rows true) []); reflexivity.
Defined.

(** X17: for one admin, different route names give different URL names. *)
Theorem get_admin_url_injective self name1 name2 :
  get_admin_url self name1 = get_admin_url self name2 → name1 = name2.
Proof.
  unfold get_admin_url. intros Heq.
  by do 4 apply string_app_inv_head in Heq.
Qed.

Lemma get_admin_url_injective_witness : "export" = "export".
Proof.
  apply (get_admin_url_injective legacy_admin "export" "export"). reflexivity.
Defined.

(** X18: [get_recipients] is found on every admin class of the file, so the
    call never fails for want of the method, and it returns one entry for
    each recipient of the record, in order: the recipient as it is on
    [FormDataAdmin], and the address formatted from its name and e-mail on
    the other classes. *)
Theorem get_recipients_by_class denv c obj :
  get_recipients denv c obj
  = Ok ((λ recipient,
           match c with
           | FormDataAdmin => Unformatted recipient
           | _ => Formatted (formataddr denv (recipient_name recipient,
                                              recipient_email recipient))
           end) <$> obj_get_recipients denv obj).
Proof. by destruct c. Qed.

(** * The header names, exactly *)



Lemma chosen_labels_lookup fields p :
  chosen_labels fields !! p = column_label fields p.
Proof.
  unfold chosen_labels, column_label. rewrite list_lookup_imap.
  by destruct (fields !! p).
Qed.





(** Both directions at work: two fields "A" and a field "A 2" placed after
    them get three headers of their own; placed between them, the field
    "A 2" loses its header to the second "A". *)
Example header_count_samples :
  chosen_labels [fld "A" "1"; fld "A" "2"; fld "A 2" "3"]
  = ["A"; "A 2"; "A 2 2"]
  ∧ length (build_headers env_new [fld "A" "1"; fld "A" "2"; fld "A 2" "3"]) = 5
  ∧ chosen_labels [fld "A" "1"; fld "A 2" "2"; fld "A" "3"]
    = ["A"; "A 2"; "A 2"]
  ∧ length (build_headers env_new [fld "A" "1"; fld "A 2" "2"; fld "A" "3"]) = 4
  ∧ chosen_labels [fld "A" "1"; fld "A 2" "2"] = ["A"; "A 2"]
  ∧ length (build_headers env_new [fld "A" "1"; fld "A 2" "2"]) = 4.
Proof. by vm_compute. Qed.

(** ** Which accessor a header ends up with *)

Section sorted_dict_entries.
Context {V : Type}.
Implicit Types (d : list (string * V)) (k : string) (v : V).



End sorted_dict_entries.





(** ** The counter of a repeated label *)









(** Both cases of the counter, and a column taken over: after two fields "A"
    the label "A 2" is a header already and its fields are counted from 2;
    and in the last sequence the second "A" takes the header "A 2" from the
    first field. *)
Example duplicate_labels_samples :
  chosen_labels [fld "A" "1"; fld "B" "2"; fld "A" "3"; fld "A" "4"]
  = ["A"; "B"; "A 2"; "A 3"]
  ∧ chosen_labels [fld "A" "1"; fld "A" "2"; fld "A 2" "3"; fld "A 2" "4"]
    = ["A"; "A 2"; "A 2 2"; "A 2 3"]
  ∧ chosen_labels [fld "A 2" "1"; fld "A 2" "2"; fld "A" "3"; fld "A" "4"]
    = ["A 2"; "A 2 2"; "A"; "A 2"]
  ∧ sd_getitem "A 2"
      (field_headers [fld "A 2" "1"; fld "A 2" "2"; fld "A" "3"; fld "A" "4"])
    = Some (Callable (clean_data "A" 3)).
Proof. by vm_compute. Qed.
